(** * LS-8 virtual CPU ([src/ls8/cpu.py]): shallow embedding and properties

    The Python class [CPU] keeps its machine state in five attributes
    ([ram], [reg], [pc], [ir], [fl]) and mutates them in place; its methods
    either return or raise.  ([trace], a debugging aid that no method
    calls, is left out.)  The embedding below is a state-and-exception
    monad over a record of these attributes.  Python integers are unbounded,
    so every number is a [Z]; Python lists are [list Z] read and written
    through the subscript rules of the language (negative subscripts count
    from the end, anything else out of range raises [IndexError]).  The
    interpreter is CPython with its default settings: small integers
    compare by [is] as they do by [==], and an [int] of more than 4300
    decimal digits cannot be formatted in decimal. *)

From Stdlib Require Import ZArith Lia Ascii String.
From stdpp Require Import base list gmap strings.

Local Open Scope Z_scope.

(** ** Opcodes (module-level constants of cpu.py)

    Rocq has no binary numerals: each constant is written in hexadecimal,
    with the binary numeral of the source beside it. *)

Module Op.
Definition ADD  : Z := 0xa0. (* 0b10100000 *)
Definition LDI  : Z := 0x82. (* 0b10000010 *)
Definition PRN  : Z := 0x47. (* 0b01000111 *)
Definition HLT  : Z := 0x01. (* 0b00000001 *)
Definition MUL  : Z := 0xa2. (* 0b10100010 *)
Definition PUSH : Z := 0x45. (* 0b01000101 *)
Definition POP  : Z := 0x46. (* 0b01000110 *)
Definition CALL : Z := 0x50. (* 0b01010000 *)
Definition RET  : Z := 0x11. (* 0b00010001 *)
Definition CMP  : Z := 0xa7. (* 0b10100111 *)
Definition JMP  : Z := 0x54. (* 0b01010100 *)
Definition JEQ  : Z := 0x55. (* 0b01010101 *)
Definition JNE  : Z := 0x56. (* 0b01010110 *)
End Op.

(** ** Machine state *)

(** [out] is the standard output: one entry [v] per line ["Print: v"]
    written by [PRN], oldest first. *)
Record CPU : Type := mkCPU {
  ram : list Z;
  reg : list Z;
  pc  : Z;
  ir  : option Z;
  fl  : Z;
  out : list Z
}.

(** [CPU.__init__]: [reg[7]] is assigned after the register list is built. *)
Definition cpu_init : CPU :=
  {| ram := replicate 256 0;
     reg := <[7%nat := 0xf4]> (replicate 8 0);
     pc  := 0;
     ir  := None;
     fl  := 0;
     out := [] |}.

(** ** Exceptions and the monad *)

(** The exceptions cpu.py can raise.  [IndexError] remembers the offending
    subscript (Python's message does not show it); [KeyError] carries the
    missing dictionary key, as in Python; [SystemExit] is what [quit()]
    raises. *)
Inductive exn : Type :=
| IndexError (i : Z)
| KeyError (k : Z)
| ValueError
| TypeError
| SystemExit
| Exception (msg : string).

Inductive outcome (A : Type) : Type :=
| Ret (a : A)
| Raise (e : exn).
Arguments Ret {A} a.
Arguments Raise {A} e.

(** A method body: it ends normally or by an exception, and in both cases
    leaves behind the state as mutated so far. *)
Definition M (A : Type) : Type := CPU → outcome A * CPU.

#[global] Instance M_ret : MRet M := λ A a s, (Ret a, s).

#[global] Instance M_bind : MBind M := λ A B f m s,
  match m s with
  | (Ret a, s') => f a s'
  | (Raise e, s') => (Raise e, s')
  end.

Definition raise {A : Type} (e : exn) : M A := λ s, (Raise e, s).

Definition get {A : Type} (f : CPU → A) : M A := λ s, (Ret (f s), s).

Definition put (f : CPU → CPU) : M unit := λ s, (Ret tt, f s).

(** ** Python list subscripts *)

(** The position a subscript [i] denotes in a list of length [len]. *)
Definition py_index (len : nat) (i : Z) : option nat :=
  if bool_decide (0 ≤ i < Z.of_nat len) then Some (Z.to_nat i)
  else if bool_decide (- Z.of_nat len ≤ i < 0) then Some (Z.to_nat (Z.of_nat len + i))
  else None.

(** [l[i]] *)
Definition py_getitem (l : list Z) (i : Z) : option Z :=
  n ← py_index (length l) i; l !! n.

(** [l[i] = v] *)
Definition py_setitem (l : list Z) (i : Z) (v : Z) : option (list Z) :=
  n ← py_index (length l) i; Some (<[n := v]> l).

(** ** Attribute access *)

Definition set_ram (r : list Z) (s : CPU) : CPU :=
  {| ram := r; reg := reg s; pc := pc s; ir := ir s; fl := fl s; out := out s |}.
Definition set_reg (r : list Z) (s : CPU) : CPU :=
  {| ram := ram s; reg := r; pc := pc s; ir := ir s; fl := fl s; out := out s |}.
Definition set_pc (p : Z) (s : CPU) : CPU :=
  {| ram := ram s; reg := reg s; pc := p; ir := ir s; fl := fl s; out := out s |}.
Definition set_ir (i : option Z) (s : CPU) : CPU :=
  {| ram := ram s; reg := reg s; pc := pc s; ir := i; fl := fl s; out := out s |}.
Definition set_fl (f : Z) (s : CPU) : CPU :=
  {| ram := ram s; reg := reg s; pc := pc s; ir := ir s; fl := f; out := out s |}.
Definition set_out (o : list Z) (s : CPU) : CPU :=
  {| ram := ram s; reg := reg s; pc := pc s; ir := ir s; fl := fl s; out := o |}.

(** [self.ram[i]] *)
Definition ram_get (i : Z) : M Z := λ s,
  match py_getitem (ram s) i with
  | Some v => (Ret v, s)
  | None => (Raise (IndexError i), s)
  end.

(** [self.ram[i] = v] *)
Definition ram_set (i v : Z) : M unit := λ s,
  match py_setitem (ram s) i v with
  | Some r => (Ret tt, set_ram r s)
  | None => (Raise (IndexError i), s)
  end.

(** [self.reg[i]] *)
Definition reg_get (i : Z) : M Z := λ s,
  match py_getitem (reg s) i with
  | Some v => (Ret v, s)
  | None => (Raise (IndexError i), s)
  end.

(** [self.reg[i] = v] *)
Definition reg_set (i v : Z) : M unit := λ s,
  match py_setitem (reg s) i v with
  | Some r => (Ret tt, set_reg r s)
  | None => (Raise (IndexError i), s)
  end.

(** [self.ir], used as a number: [None & 0b...] is a [TypeError]. *)
Definition ir_get : M Z := λ s,
  match ir s with
  | Some i => (Ret i, s)
  | None => (Raise TypeError, s)
  end.

(** [sys.int_max_str_digits]: CPython's limit on the conversion of an [int]
    to a decimal string, 4300 digits unless the host changes it; cpu.py does
    not. *)
Definition int_max_str_digits : Z := 4300.

(** [print(f"Print: {value}")].  The f-string formats [value] in decimal
    first: an [int] of more than [int_max_str_digits] digits, whatever its
    sign, raises [ValueError] there and nothing is printed. *)
Definition print (v : Z) : M unit :=
  if bool_decide (Z.abs v < 10 ^ int_max_str_digits)
  then put (λ s, set_out (out s ++ [v]) s)
  else raise ValueError.

(** ** Methods of [CPU] *)

Definition ram_read (address : Z) : M Z := ram_get address.

Definition ram_write (value address : Z) : M unit := ram_set address value.

(** The [stack_pointer] property: getter and setter over [reg[7]]. *)
Definition stack_pointer : M Z := reg_get 7.
Definition stack_pointer_set (value : Z) : M unit := reg_set 7 value.

(** [alu]: the operation is selected by a string.  [x += y] on a subscript
    reads the target, then the right-hand side, then stores.  Each [elif] of
    the CMP chain evaluates its own subscripts again. *)
Definition alu (op : string) (reg_a reg_b : Z) : M unit :=
  if bool_decide (op = "ADD"%string) then
    x ← reg_get reg_a; y ← reg_get reg_b; reg_set reg_a (x + y)
  else if bool_decide (op = "MUL"%string) then
    x ← reg_get reg_a; y ← reg_get reg_b; reg_set reg_a (x * y)
  else if bool_decide (op = "CMP"%string) then
    x ← reg_get reg_a; y ← reg_get reg_b;
    if bool_decide (x < y) then put (set_fl 0x04 (* 0b00000100 *))
    else
      x ← reg_get reg_a; y ← reg_get reg_b;
      if bool_decide (x > y) then put (set_fl 0x02 (* 0b00000010 *))
      else
        x ← reg_get reg_a; y ← reg_get reg_b;
        if bool_decide (x = y) then put (set_fl 0x01 (* 0b00000001 *))
        else mret tt
  else raise (Exception "Unsupported ALU operation").

Definition LDI : M unit :=
  p ← get pc; register_address ← ram_get (p + 1);
  p ← get pc; register_value ← ram_get (p + 2);
  reg_set register_address register_value.

Definition PRN : M unit :=
  p ← get pc; a ← ram_read (p + 1); value ← reg_get a;
  print value.

Definition HLT : M unit := raise SystemExit.

(** In [self.ram[self.stack_pointer] = self.ram[self.pc + 1]] the right-hand
    side is evaluated before the target subscript. *)
Definition PUSH : M unit :=
  sp ← stack_pointer; stack_pointer_set (sp - 1);;
  p ← get pc; v ← ram_get (p + 1);
  sp ← stack_pointer; ram_set sp v.

Definition POP : M unit :=
  sp ← stack_pointer; v ← ram_get sp;
  p ← get pc; ram_set (p + 1) v;;
  sp ← stack_pointer; stack_pointer_set (sp + 1).

Definition CALL : M unit :=
  sp ← stack_pointer; stack_pointer_set (sp - 1);;
  p ← get pc; v ← ram_get (p + 1);
  sp ← stack_pointer; ram_set sp v;;
  p ← get pc; t ← reg_get (p + 1);
  put (set_pc t).

Definition RET : M unit :=
  sp ← stack_pointer; t ← ram_get sp; put (set_pc t);;
  sp ← stack_pointer; stack_pointer_set (sp + 1).

Definition JMP : M unit :=
  p ← get pc; a ← ram_get (p + 1); t ← reg_get a;
  put (set_pc t).

Definition JEQ : M unit :=
  f ← get fl;
  if bool_decide (f = 1) then JMP
  else p ← get pc; put (set_pc (p + 2)).

(** [self.fl is not 1]: CPython keeps one object per small integer, so
    identity with the literal [1] is equality of values. *)
Definition JNE : M unit :=
  f ← get fl;
  if bool_decide (f ≠ 1) then JMP
  else p ← get pc; put (set_pc (p + 2)).

(** ** Dispatch *)

(** An entry of the branch table is a bound method without parameters or a
    lambda of two parameters; calling one with the other's number of
    arguments is a [TypeError]. *)
Inductive handler : Type :=
| Method (h : M unit)
| Lambda2 (h : Z → Z → M unit).

Definition branchtable : gmap Z handler :=
  list_to_map
    [ (Op.LDI, Method LDI);
      (Op.PRN, Method PRN);
      (Op.HLT, Method HLT);
      (Op.MUL, Lambda2 (λ oper_a oper_b, alu "MUL" oper_a oper_b));
      (Op.ADD, Lambda2 (λ oper_a oper_b, alu "ADD" oper_a oper_b));
      (Op.PUSH, Method PUSH);
      (Op.POP, Method POP);
      (Op.CALL, Method CALL);
      (Op.RET, Method RET);
      (Op.CMP, Lambda2 (λ oper_a oper_b, alu "CMP" oper_a oper_b));
      (Op.JMP, Method JMP);
      (Op.JEQ, Method JEQ);
      (Op.JNE, Method JNE) ].

(** [self.branchtable[k]] *)
Definition branchtable_get (k : Z) : M handler :=
  match branchtable !! k with
  | Some h => mret h
  | None => raise (KeyError k)
  end.

Definition call0 (h : handler) : M unit :=
  match h with
  | Method m => m
  | Lambda2 _ => raise TypeError
  end.

Definition call2 (h : handler) (a b : Z) : M unit :=
  match h with
  | Method _ => raise TypeError
  | Lambda2 f => f a b
  end.

(** The [if is_alu_op: ... else: ...] statement of [run]. *)
Definition dispatch (is_alu_op oper_a oper_b : Z) : M unit :=
  if bool_decide (is_alu_op ≠ 0) then
    i ← ir_get; h ← branchtable_get i; call2 h oper_a oper_b
  else
    i ← ir_get; h ← branchtable_get i; call0 h.

(** The [if not sets_pc: ...] statement of [run]. *)
Definition advance (sets_pc : Z) : M unit :=
  if bool_decide (sets_pc = 0) then
    i ← ir_get; p ← get pc;
    put (set_pc (p + (Z.shiftr (Z.land i 0xc0 (* 0b11000000 *)) 6 + 1)))
  else mret tt.

(** One iteration of the [while True] loop of [run]. *)
Definition step : M unit :=
  p ← get pc; i ← ram_read p; put (set_ir (Some i));;
  i ← ir_get;
  let sets_pc := Z.shiftr (Z.land i 0x10 (* 0b00010000 *)) 4 in
  p ← get pc; oper_a ← ram_get (p + 1);
  p ← get pc; oper_b ← ram_get (p + 2);
  i ← ir_get;
  let is_alu_op := Z.shiftr (Z.land i 0x20 (* 0b00100000 *)) 5 in
  dispatch is_alu_op oper_a oper_b;;
  advance sets_pc.

(** [run]: the loop only ends by an exception.  [None] means that the loop
    is still going after [fuel] iterations. *)
Fixpoint run (fuel : nat) (s : CPU) : option (exn * CPU) :=
  match fuel with
  | O => None
  | S fuel' =>
      match step s with
      | (Ret _, s') => run fuel' s'
      | (Raise e, s') => Some (e, s')
      end
  end.

(** ** The loader *)

(** Lines are strings over the code points below 256, one [ascii] each. *)

(** [s[:n]] *)
Fixpoint str_take (n : nat) (s : string) : string :=
  match n, s with
  | S n', String c s' => String c (str_take n' s')
  | _, _ => EmptyString
  end.

(** [''.join(filter(f, s))] *)
Fixpoint str_filter (f : ascii → bool) (s : string) : string :=
  match s with
  | EmptyString => EmptyString
  | String c s' => if f c then String c (str_filter f s') else str_filter f s'
  end.

(** [str.isdigit] on one character: below code point 256 the digits are
    ['0'] to ['9'] and the superscripts U+00B2, U+00B3 and U+00B9. *)
Definition isdigit (c : ascii) : bool :=
  let n := N_of_ascii c in
  bool_decide (48 ≤ n ≤ 57)%N || bool_decide (n = 178)%N
  || bool_decide (n = 179)%N || bool_decide (n = 185)%N.

(** The digits of a base-2 numeral, most significant first; [None] at the
    first character that is not ['0'] or ['1']. *)
Fixpoint int2_digits (s : string) (acc : Z) : option Z :=
  match s with
  | EmptyString => Some acc
  | String c s' =>
      if bool_decide (c = "0"%char) then int2_digits s' (2 * acc)
      else if bool_decide (c = "1"%char) then int2_digits s' (2 * acc + 1)
      else None
  end.

(** [int(s, 2)] for a string [s] of [isdigit] characters, which is all that
    [load] passes to it; [None] stands for [ValueError]. *)
Definition int_base2 (s : string) : option Z :=
  match s with
  | EmptyString => None
  | _ => int2_digits s 0
  end.

(** The [for line in program] loop of [load], from [address] on; it returns
    the next free address.  [len(cleaned_line) is 8] compares small integers
    by identity, which in CPython is equality of values. *)
Fixpoint load_lines (program : list string) (address : Z) : M Z :=
  match program with
  | [] => mret address
  | line :: program' =>
      let shortend_line := str_take 8 line in
      let cleaned_line := str_filter isdigit shortend_line in
      if bool_decide (String.length cleaned_line = 8%nat) then
        match int_base2 cleaned_line with
        | Some value => ram_write value address;; load_lines program' (address + 1)
        | None => raise ValueError
        end
      else load_lines program' address
  end.

(** [load], on the lines of the opened file: fill the memory, then [run]. *)
Definition load (fuel : nat) (program : list string) (s : CPU) : option (exn * CPU) :=
  match load_lines program 0 s with
  | (Ret _, s') => run fuel s'
  | (Raise e, s') => Some (e, s')
  end.

(** ** Well-formed states *)

(** The two lists are built once and only ever assigned by subscript. *)
Definition wf (s : CPU) : Prop :=
  length (ram s) = 256%nat ∧ length (reg s) = 8%nat.

(** A state with given registers, for examples. *)
Definition with_regs (r : list Z) : CPU := set_reg r cpu_init.

(** ** Notions the properties are stated with *)

(** Exactly one bit of [f] is set. *)
Definition one_bit_set (f : Z) : Prop :=
  ∃ k, 0 ≤ k ∧ ∀ j, Z.testbit f j = bool_decide (j = k).

(** [respects R m]: whatever the outcome of [m], the state it leaves is
    related by [R] to the state it started from. *)
Definition respects {A : Type} (R : relation CPU) (m : M A) : Prop :=
  ∀ s o s', m s = (o, s') → R s s'.

(** What a relation may have to allow: subscript assignment to either list
    (the length stays) and a line of output; *)
Class AllowsData (R : relation CPU) : Prop := {
  allows_ram : ∀ s r, length r = length (ram s) → R s (set_ram r s);
  allows_reg : ∀ s r, length r = length (reg s) → R s (set_reg r s);
  allows_out : ∀ s o, R s (set_out o s)
}.

(** a new flags value, as long as it is one that CMP assigns; *)
Class AllowsFlags (R : relation CPU) : Prop :=
  allows_fl : ∀ s f, f = 1 ∨ f = 2 ∨ f = 4 → R s (set_fl f s).

(** a new program counter; *)
Class AllowsJump (R : relation CPU) : Prop :=
  allows_pc : ∀ s p, R s (set_pc p s).

(** a new instruction register. *)
Class AllowsFetch (R : relation CPU) : Prop :=
  allows_ir : ∀ s i, R s (set_ir i s).

(** [keeps f]: the attribute [f] is the same before and after. *)
Definition keeps {A : Type} (f : CPU → A) : relation CPU := λ s s', f s' = f s.

(** Both lists keep their lengths. *)
Definition same_shape : relation CPU := λ s s',
  length (ram s') = length (ram s) ∧ length (reg s') = length (reg s).

(** The numbers an exception carries in its [args], for whoever reports it:
    the missing key of a [KeyError]; the other exceptions of cpu.py carry
    none. *)
Definition exn_args (e : exn) : list Z :=
  match e with
  | KeyError k => [k]
  | _ => []
  end.

(** The digits among the first eight characters of a line. *)
Definition cleaned (line : string) : string :=
  str_filter isdigit (str_take 8 line).

(** The lines that [load] does not skip. *)
Definition kept (program : list string) : list string :=
  filter (λ line, String.length (cleaned line) = 8%nat) program.

(** The values the flags register takes. *)
Definition flag_values (f : Z) : Prop := f = 0 ∨ f = 1 ∨ f = 2 ∨ f = 4.

(** A flags value that is one of the four stays one of the four. *)
Definition flags_inv : relation CPU := λ s s',
  flag_values (fl s) → flag_values (fl s').

(** What the host of a [CPU] object can do with it: call a method.  [run] is
    taken one iteration at a time, and [load] as its loop over the lines
    followed by [run]. *)
Inductive call : Type :=
| Call_load_lines (program : list string)
| Call_ram_read (address : Z)
| Call_ram_write (value address : Z)
| Call_alu (op : string) (reg_a reg_b : Z)
| Call_stack_pointer
| Call_stack_pointer_set (value : Z)
| Call_LDI | Call_PRN | Call_HLT | Call_PUSH | Call_POP
| Call_CALL | Call_RET | Call_JMP | Call_JEQ | Call_JNE
| Call_run_iteration.

Definition exec (c : call) : M unit :=
  match c with
  | Call_load_lines program => load_lines program 0 ≫= λ _, mret tt
  | Call_ram_read address => ram_read address ≫= λ _, mret tt
  | Call_ram_write value address => ram_write value address
  | Call_alu op reg_a reg_b => alu op reg_a reg_b
  | Call_stack_pointer => stack_pointer ≫= λ _, mret tt
  | Call_stack_pointer_set value => stack_pointer_set value
  | Call_LDI => LDI | Call_PRN => PRN | Call_HLT => HLT
  | Call_PUSH => PUSH | Call_POP => POP
  | Call_CALL => CALL | Call_RET => RET
  | Call_JMP => JMP | Call_JEQ => JEQ | Call_JNE => JNE
  | Call_run_iteration => step
  end.

(** The states a [CPU] object can be in: the one [__init__] builds, and
    the one any method call leaves, whether it returns or raises. *)
Inductive reachable : CPU → Prop :=
| reach_init : reachable cpu_init
| reach_call (c : call) (s s' : CPU) (o : outcome unit) :
    reachable s → exec c s = (o, s') → reachable s'.

(** The calls that are a CMP: the ALU called with ["CMP"], and an
    iteration of the run loop whose opcode is CMP. *)
Definition compares (c : call) (s : CPU) : Prop :=
  match c with
  | Call_alu op _ _ => op = "CMP"%string
  | Call_run_iteration => py_getitem (ram s) (pc s) = Some Op.CMP
  | _ => False
  end.

(** The flags register is as it was, or holds a value CMP assigns. *)
Definition flags_step : relation CPU := λ s s',
  fl s' = fl s ∨ fl s' = 1 ∨ fl s' = 2 ∨ fl s' = 4.

(** ** Example programs and states *)

(** The registers of the example of the specification: [reg[0] = 250],
    [reg[1] = 10]. *)
Definition regs_250_10 : CPU := with_regs [250; 10; 0; 0; 0; 0; 0; 0xf4].

(** [LDI 0 250; LDI 1 10; ADD 0 1; HLT], the example of the
    specification as a program. *)
Definition prog_add : list string :=
  [ "10000010"; "00000000"; "11111010"; "10000010"; "00000001"; "00001010";
    "10100000"; "00000000"; "00000001"; "00000001" ]%string.

(** The state in which [run] starts after [load] has read [program]. *)
Definition loaded (program : list string) : CPU :=
  (load_lines program 0 cpu_init).2.

(** [LDI 0 8; LDI 1 9; MUL 0 1; PRN 0; HLT], with a comment line and
    trailing comments. *)
Definition prog_mult : list string :=
  [ "# multiply"; "10000010 # LDI R0,8"; "00000000"; "00001000";
    "10000010 # LDI R1,9"; "00000001"; "00001001";
    "10100010 # MUL R0,R1"; "00000000"; "00000001";
    "01000111 # PRN R0"; "00000000"; "00000001 # HLT" ]%string.

(** [LDI 0 8] followed by the byte 2, which is no opcode. *)
Definition prog_unknown : list string :=
  [ "10000010"; "00000000"; "00001000"; "00000010" ]%string.

(** A memory that holds HLT in its last cell, with the program counter on
    it. *)
Definition hlt_at_255 : CPU :=
  set_pc 255 (set_ram (<[255%nat := Op.HLT]> (replicate 256 0)) cpu_init).

(** The first iteration on [prog_mult]: the state in which the handler of
    [LDI 0 8] returns. *)
Definition ldi_returned : CPU :=
  (dispatch (Z.shiftr (Z.land Op.LDI 0x20) 5) 0 8
     (set_ir (Some Op.LDI) (loaded prog_mult))).2.

(** [prog_unknown] after its first iteration: the program counter is on the
    byte 2. *)
Definition unknown_fetched : CPU := (step (loaded prog_unknown)).2.

(** [PUSH 7; POP 0; HLT] *)
Definition prog_stack : list string :=
  [ "01000101"; "00000111"; "01000110"; "00000000"; "00000001" ]%string.

(** [LDI 1 6; CALL 1; ...]: the iteration on CALL has [pc = 3], so the
    register consulted is [reg[4]], not [reg[1]]. *)
Definition prog_call : list string :=
  [ "10000010"; "00000001"; "00000110"; "01010000"; "00000001";
    "00000001"; "00000001" ]%string.

Definition call_fetched : CPU := (step (loaded prog_call)).2.

(** [LDI 0 20; CMP 0 0; JEQ 0; ...]: after two iterations the flags
    register is 1 and the program counter is on JEQ. *)
Definition prog_jeq : list string :=
  [ "10000010"; "00000000"; "00010100"; "10100111"; "00000000"; "00000000";
    "01010101"; "00000000"; "00000001" ]%string.

Definition jeq_fetched : CPU := (step (step (loaded prog_jeq)).2).2.

(** ** Notions for the further properties *)

(** [wp m Q E s]: started in [s], the body [m] either returns a value and a
    state that satisfy [Q], or raises an exception in a state that satisfy
    [E]. *)
Definition wp {A : Type} (m : M A)
    (Q : A → CPU → Prop) (E : exn → CPU → Prop) (s : CPU) : Prop :=
  match m s with
  | (Ret a, s') => Q a s'
  | (Raise e, s') => E e s'
  end.

(** What the run loop calls for opcode [i] with the operands [a] and [b]:
    the entry of the branch table, with the number of arguments its kind
    takes. *)
Inductive invokes : Z → Z → Z → M unit → Prop :=
| invokes_LDI a b : invokes Op.LDI a b LDI
| invokes_PRN a b : invokes Op.PRN a b PRN
| invokes_HLT a b : invokes Op.HLT a b HLT
| invokes_MUL a b : invokes Op.MUL a b (alu "MUL" a b)
| invokes_ADD a b : invokes Op.ADD a b (alu "ADD" a b)
| invokes_PUSH a b : invokes Op.PUSH a b PUSH
| invokes_POP a b : invokes Op.POP a b POP
| invokes_CALL a b : invokes Op.CALL a b CALL
| invokes_RET a b : invokes Op.RET a b RET
| invokes_CMP a b : invokes Op.CMP a b (alu "CMP" a b)
| invokes_JMP a b : invokes Op.JMP a b JMP
| invokes_JEQ a b : invokes Op.JEQ a b JEQ
| invokes_JNE a b : invokes Op.JNE a b JNE.

(** A number that fits a memory cell of the LS-8. *)
Definition byte (v : Z) : Prop := 0 ≤ v < 256.

(** The states of a machine that is used as [load] uses it: the memory is
    filled from the lines of a file, then the loop runs. *)
Inductive running : CPU → Prop :=
| running_loaded (program : list string) (o : outcome Z) (s : CPU) :
    load_lines program 0 cpu_init = (o, s) → running s
| running_step (s s' : CPU) (o : outcome unit) :
    running s → step s = (o, s') → running s'.

(** Every character is a digit. *)
Fixpoint all_digits (s : string) : bool :=
  match s with
  | EmptyString => true
  | String c s' => isdigit c && all_digits s'
  end.

(** What an iteration on opcode [i] leaves alone, from state [s] to [s']:
    the memory unless [i] is PUSH, POP or CALL; the registers unless [i] is
    LDI, ADD, MUL, PUSH, POP, CALL or RET; the output unless [i] is PRN,
    which at most appends one value. *)
Definition frame (i : Z) (s s' : CPU) : Prop :=
  (i ∉ [Op.PUSH; Op.POP; Op.CALL] → ram s' = ram s) ∧
  (i ∉ [Op.LDI; Op.ADD; Op.MUL; Op.PUSH; Op.POP; Op.CALL; Op.RET] →
   reg s' = reg s) ∧
  (i ≠ Op.PRN → out s' = out s) ∧
  (out s' = out s ∨ ∃ v, out s' = out s ++ [v]).

(** [prog_mult] after three iterations: the program counter is on PRN. *)
Definition prn_fetched : CPU := (step (step (step (loaded prog_mult)).2).2).2.

(** [LDI 0 6; PUSH 0; RET; ...]: after two iterations the program counter
    is on RET, with the byte 0 on top of the stack. *)
Definition prog_ret : list string :=
  [ "10000010"; "00000000"; "00000110"; "01000101"; "00000000";
    "00010001"; "00000001"; "00000001" ]%string.

Definition ret_fetched : CPU := (step (step (loaded prog_ret)).2).2.

(** [LDI 9 1; HLT]: register 9 does not exist. *)
Definition prog_ldi9 : list string :=
  [ "10000010"; "00001001"; "00000001"; "00000001" ]%string.

(** [LDI 0 5; LDI 1 9; CMP 0 1; JEQ 0; ...] after its two first
    iterations: the program counter is on CMP, the flags register is still
    0, and [reg[0] = 5] differs from [reg[1] = 9]. *)
Definition prog_cmp : list string :=
  [ "10000010"; "00000000"; "00000101"; "10000010"; "00000001"; "00001001";
    "10100111"; "00000000"; "00000001"; "01010101"; "00000000";
    "00000001" ]%string.

Definition cmp_fetched : CPU := (step (step (loaded prog_cmp)).2).2.

(** [LDI 0 128], eleven times [MUL 0 0], [PRN 0], [HLT]: after the twelve
    first iterations the program counter is on PRN and [reg[0]] holds
    [128 ^ 2048], that is [2 ^ 14336], a number of 4316 decimal digits. *)
Definition prog_square : list string :=
  [ "10000010"; "00000000"; "10000000" ]%string ++
  mjoin (replicate 11 [ "10100010"; "00000000"; "00000000" ]%string) ++
  [ "01000111"; "00000000"; "00000001" ]%string.

Definition square_fetched : CPU :=
  Nat.iter 12 (λ s, (step s).2) (loaded prog_square).

(** * Properties *)

(** ** Subscripts *)

Lemma py_index_nonneg (len : nat) (i : Z) :
  0 ≤ i < Z.of_nat len → py_index len i = Some (Z.to_nat i).
Proof. intros H. unfold py_index. by rewrite bool_decide_eq_true_2. Qed.

Lemma py_index_None (len : nat) (i : Z) :
  Z.of_nat len ≤ i → py_index len i = None.
Proof.
  intros H. unfold py_index.
  rewrite !bool_decide_eq_false_2; [done | lia | lia].
Qed.

Lemma py_index_lt (len : nat) (i : Z) (n : nat) :
  py_index len i = Some n → (n < len)%nat.
Proof.
  unfold py_index. repeat case_bool_decide; intros ?; simplify_eq; lia.
Qed.

Lemma py_getitem_nonneg (l : list Z) (i : Z) :
  0 ≤ i < Z.of_nat (length l) → py_getitem l i = l !! Z.to_nat i.
Proof. intros H. unfold py_getitem. by rewrite py_index_nonneg. Qed.

Lemma py_getitem_None (l : list Z) (i : Z) :
  Z.of_nat (length l) ≤ i → py_getitem l i = None.
Proof. intros H. unfold py_getitem. by rewrite py_index_None. Qed.

Lemma py_getitem_is_Some (l : list Z) (i : Z) :
  0 ≤ i < Z.of_nat (length l) → is_Some (py_getitem l i).
Proof.
  intros H. rewrite py_getitem_nonneg by done.
  apply lookup_lt_is_Some_2. lia.
Qed.

Lemma py_setitem_nonneg (l : list Z) (i v : Z) :
  0 ≤ i < Z.of_nat (length l) → py_setitem l i v = Some (<[Z.to_nat i := v]> l).
Proof. intros H. unfold py_setitem. by rewrite py_index_nonneg. Qed.

Lemma py_setitem_length (l l' : list Z) (i v : Z) :
  py_setitem l i v = Some l' → length l' = length l.
Proof.
  unfold py_setitem. destruct (py_index _ _); intros ?; simplify_eq/=.
  apply length_insert.
Qed.

(** Reading back the subscript that was just assigned. *)
Lemma py_getitem_setitem (l l' : list Z) (i v : Z) :
  py_setitem l i v = Some l' → py_getitem l' i = Some v.
Proof.
  unfold py_setitem, py_getitem.
  destruct (py_index (length l) i) as [n|] eqn:E; intros ?; simplify_eq/=.
  rewrite length_insert, E. simpl.
  apply list_lookup_insert_eq. by eapply py_index_lt.
Qed.

(** ** Running the monad *)

Lemma bind_Ret {A B : Type} (m : M A) (k : A → M B) (s s' : CPU) (a : A) :
  m s = (Ret a, s') → (m ≫= k) s = k a s'.
Proof. intros H. unfold mbind, M_bind. by rewrite H. Qed.

Lemma bind_Raise {A B : Type} (m : M A) (k : A → M B) (s s' : CPU) (e : exn) :
  m s = (Raise e, s') → (m ≫= k) s = (Raise e, s').
Proof. intros H. unfold mbind, M_bind. by rewrite H. Qed.

Lemma bind_get {A B : Type} (f : CPU → A) (k : A → M B) (s : CPU) :
  (get f ≫= k) s = k (f s) s.
Proof. done. Qed.

Lemma bind_put {B : Type} (f : CPU → CPU) (k : unit → M B) (s : CPU) :
  (put f ≫= k) s = k tt (f s).
Proof. done. Qed.

Lemma reg_get_Some (i v : Z) (s : CPU) :
  py_getitem (reg s) i = Some v → reg_get i s = (Ret v, s).
Proof. intros H. unfold reg_get. by rewrite H. Qed.

Lemma ram_get_Some (i v : Z) (s : CPU) :
  py_getitem (ram s) i = Some v → ram_get i s = (Ret v, s).
Proof. intros H. unfold ram_get. by rewrite H. Qed.

Lemma ram_get_None (i : Z) (s : CPU) :
  py_getitem (ram s) i = None → ram_get i s = (Raise (IndexError i), s).
Proof. intros H. unfold ram_get. by rewrite H. Qed.

Lemma reg_set_Some (i v : Z) (r : list Z) (s : CPU) :
  py_setitem (reg s) i v = Some r → reg_set i v s = (Ret tt, set_reg r s).
Proof. intros H. unfold reg_set. by rewrite H. Qed.

Lemma ram_set_Some (i v : Z) (r : list Z) (s : CPU) :
  py_setitem (ram s) i v = Some r → ram_set i v s = (Ret tt, set_ram r s).
Proof. intros H. unfold ram_set. by rewrite H. Qed.

Lemma reg_get_None (i : Z) (s : CPU) :
  py_getitem (reg s) i = None → reg_get i s = (Raise (IndexError i), s).
Proof. intros H. unfold reg_get. by rewrite H. Qed.

Lemma ram_set_None (i v : Z) (s : CPU) :
  py_setitem (ram s) i v = None → ram_set i v s = (Raise (IndexError i), s).
Proof. intros H. unfold ram_set. by rewrite H. Qed.

Lemma ir_get_Some (i : Z) (s : CPU) : ir s = Some i → ir_get s = (Ret i, s).
Proof. intros H. unfold ir_get. by rewrite H. Qed.

(** A method body is run on a state by rewriting its binds one at a time;
    the subscripts it reads are looked up among the hypotheses. *)
Tactic Notation "mrun_simpl" :=
  cbn [ram reg pc ir fl out set_ram set_reg set_pc set_ir set_fl set_out].
Tactic Notation "mrun_simpl" "in" hyp(H) :=
  cbn [ram reg pc ir fl out set_ram set_reg set_pc set_ir set_fl set_out] in H.

Ltac mrun_one :=
  first
    [ rewrite bind_get
    | rewrite bind_put
    | erewrite (bind_Ret (ram_get _)) by (apply ram_get_Some; mrun_simpl; eassumption)
    | erewrite (bind_Ret (reg_get _)) by (apply reg_get_Some; mrun_simpl; eassumption)
    | erewrite (bind_Ret ir_get) by (apply ir_get_Some; mrun_simpl; first [eassumption | reflexivity])
    | erewrite (bind_Ret (ram_set _ _)) by (apply ram_set_Some; mrun_simpl; eassumption)
    | erewrite (bind_Ret (reg_set _ _)) by (apply reg_set_Some; mrun_simpl; eassumption)
    | erewrite (bind_Raise (ram_get _)) by (apply ram_get_None; mrun_simpl; eassumption)
    | erewrite (bind_Raise (reg_get _)) by (apply reg_get_None; mrun_simpl; eassumption)
    | erewrite (bind_Raise (ram_set _ _)) by (apply ram_set_None; mrun_simpl; eassumption) ];
  mrun_simpl.

Ltac mrun := repeat mrun_one.

(** The last action of a body, which no bind follows. *)
Ltac mlast :=
  first
    [ reflexivity
    | apply ram_set_Some; mrun_simpl; eassumption
    | apply reg_set_Some; mrun_simpl; eassumption
    | apply ram_get_Some; mrun_simpl; eassumption
    | apply reg_get_Some; mrun_simpl; eassumption
    | apply ram_set_None; mrun_simpl; eassumption ].

(** ** The ALU *)

Section ALU.
Variables (s : CPU) (a b : Z).
Hypothesis Hreg : length (reg s) = 8%nat.
Hypothesis Ha : 0 ≤ a < 8.
Hypothesis Hb : 0 ≤ b < 8.

Lemma reg_operands :
  ∃ x y, py_getitem (reg s) a = Some x ∧ py_getitem (reg s) b = Some y.
Proof.
  destruct (py_getitem_is_Some (reg s) a) as [x Hx]; [lia|].
  destruct (py_getitem_is_Some (reg s) b) as [y Hy]; [lia|].
  eauto.
Qed.

(** What [reg[a] = f(reg[a], reg[b])] does, for the two arithmetic
    operations of [alu]. *)
Lemma alu_arith (op : string) (f : Z → Z → Z) (x y : Z) :
  (∀ s0, alu op a b s0 =
         (x ← reg_get a; y ← reg_get b; reg_set a (f x y)) s0) →
  py_getitem (reg s) a = Some x →
  py_getitem (reg s) b = Some y →
  alu op a b s = (Ret tt, set_reg (<[Z.to_nat a := f x y]> (reg s)) s).
Proof.
  intros Hop Hx Hy. rewrite Hop.
  rewrite (bind_Ret _ _ _ _ _ (reg_get_Some _ _ _ Hx)).
  rewrite (bind_Ret _ _ _ _ _ (reg_get_Some _ _ _ Hy)).
  apply reg_set_Some, py_setitem_nonneg. lia.
Qed.

Lemma alu_cmp (f0 : Z) (x y : Z) :
  py_getitem (reg s) a = Some x →
  py_getitem (reg s) b = Some y →
  alu "CMP" a b (set_fl f0 s) =
    (Ret tt, set_fl (if bool_decide (x < y) then 4
                     else if bool_decide (x > y) then 2 else 1) s).
Proof.
  intros Hx Hy.
  assert (Gx : ∀ f, reg_get a (set_fl f s) = (Ret x, set_fl f s))
    by (intros f; by apply reg_get_Some).
  assert (Gy : ∀ f, reg_get b (set_fl f s) = (Ret y, set_fl f s))
    by (intros f; by apply reg_get_Some).
  unfold alu. simpl.
  rewrite (bind_Ret _ _ _ _ _ (Gx f0)), (bind_Ret _ _ _ _ _ (Gy f0)).
  case_bool_decide; [done|].
  rewrite (bind_Ret _ _ _ _ _ (Gx f0)), (bind_Ret _ _ _ _ _ (Gy f0)).
  case_bool_decide; [done|].
  rewrite (bind_Ret _ _ _ _ _ (Gx f0)), (bind_Ret _ _ _ _ _ (Gy f0)).
  case_bool_decide; [done|lia].
Qed.
End ALU.

Lemma one_bit_set_pow2 (k : Z) : 0 ≤ k → one_bit_set (2 ^ k).
Proof.
  intros Hk. exists k. split; [done|]. intros j.
  rewrite Z.pow2_bits_eqb by done.
  case_bool_decide; subst; [apply Z.eqb_refl | by apply Z.eqb_neq].
Qed.

(** C1, as stated, fails: Python integers do not wrap.  With [reg[0] = 250]
    and [reg[1] = 10], [ADD 0 1] leaves [reg[0] = 260], which is not
    [(250 + 10) mod 256 = 4]; [MUL 0 1] leaves 2500, not [2500 mod 256];
    and the program [LDI 0 250; LDI 1 10; ADD 0 1; HLT] halts with
    [reg[0] = 260]. *)
Lemma alu_add_wraps_counterexample :
  (∃ s', alu "ADD" 0 1 regs_250_10 = (Ret tt, s') ∧
         py_getitem (reg s') 0 = Some 260 ∧
         py_getitem (reg s') 0 ≠ Some ((250 + 10) mod 256)) ∧
  (∃ s', alu "MUL" 0 1 regs_250_10 = (Ret tt, s') ∧
         py_getitem (reg s') 0 = Some 2500 ∧
         py_getitem (reg s') 0 ≠ Some ((250 * 10) mod 256)) ∧
  (∃ s', load 4 prog_add cpu_init = Some (SystemExit, s') ∧
         py_getitem (reg s') 0 = Some 260).
Proof.
  split_and!; eexists; (split; [vm_compute; reflexivity|]);
    first [ split; done | vm_compute; reflexivity ].
Qed.

(** C1 (amended): for register indices [a], [b] in [0,8) and any register
    contents, the ALU operation ADD sets [reg[a]] to the integer
    [reg[a] + reg[b]] and MUL sets it to [reg[a] * reg[b]], without
    reduction modulo 256, and changes nothing else; the result agrees with
    the value modulo 256 exactly when it lies in [0,256). *)
Theorem alu_add_mul_exact (s : CPU) (a b : Z) :
  length (reg s) = 8%nat → 0 ≤ a < 8 → 0 ≤ b < 8 →
  ∃ x y sa sm,
    py_getitem (reg s) a = Some x ∧ py_getitem (reg s) b = Some y ∧
    alu "ADD" a b s = (Ret tt, sa) ∧
    sa = set_reg (<[Z.to_nat a := x + y]> (reg s)) s ∧
    py_getitem (reg sa) a = Some (x + y) ∧
    alu "MUL" a b s = (Ret tt, sm) ∧
    sm = set_reg (<[Z.to_nat a := x * y]> (reg s)) s ∧
    py_getitem (reg sm) a = Some (x * y) ∧
    (x + y = (x + y) mod 256 ↔ 0 ≤ x + y < 256) ∧
    (x * y = (x * y) mod 256 ↔ 0 ≤ x * y < 256).
Proof.
  intros Hreg Ha Hb.
  destruct (reg_operands s a b Hreg Ha Hb) as (x & y & Hx & Hy).
  assert (Hset : ∀ v, py_getitem (<[Z.to_nat a := v]> (reg s)) a = Some v).
  { intros v. apply (py_getitem_setitem (reg s)), py_setitem_nonneg. lia. }
  assert (Hmod : ∀ z, z = z mod 256 ↔ 0 ≤ z < 256).
  { intros z. split; [intros ->; by apply Z.mod_pos_bound
                     | intros ?; by rewrite Z.mod_small]. }
  exists x, y. do 2 eexists.
  split; [done|]. split; [done|].
  split; [by apply (alu_arith s a b Hreg Ha "ADD" Z.add x y)|].
  split; [done|]. split; [apply Hset|].
  split; [by apply (alu_arith s a b Hreg Ha "MUL" Z.mul x y)|].
  split; [done|]. split; [apply Hset|]. split; apply Hmod.
Qed.

Lemma alu_add_mul_exact_witness :
  ∃ x y sa sm,
    py_getitem (reg regs_250_10) 0 = Some x ∧
    py_getitem (reg regs_250_10) 1 = Some y ∧
    alu "ADD" 0 1 regs_250_10 = (Ret tt, sa) ∧
    sa = set_reg (<[Z.to_nat 0 := x + y]> (reg regs_250_10)) regs_250_10 ∧
    py_getitem (reg sa) 0 = Some (x + y) ∧
    alu "MUL" 0 1 regs_250_10 = (Ret tt, sm) ∧
    sm = set_reg (<[Z.to_nat 0 := x * y]> (reg regs_250_10)) regs_250_10 ∧
    py_getitem (reg sm) 0 = Some (x * y) ∧
    (x + y = (x + y) mod 256 ↔ 0 ≤ x + y < 256) ∧
    (x * y = (x * y) mod 256 ↔ 0 ≤ x * y < 256).
Proof. apply (alu_add_mul_exact regs_250_10 0 1); [reflexivity | lia | lia]. Defined.

(** C3: for register indices [a], [b] in [0,8) and any previous flags value
    [f0], the ALU operation CMP leaves the flags register at exactly 0b100
    when [reg[a] < reg[b]], 0b010 when [reg[a] > reg[b]] and 0b001 when they
    are equal; the new value has exactly one bit set, does not depend on
    [f0], and nothing else changes. *)
Theorem alu_cmp_flags (s : CPU) (a b f0 : Z) :
  length (reg s) = 8%nat → 0 ≤ a < 8 → 0 ≤ b < 8 →
  ∃ x y f,
    py_getitem (reg s) a = Some x ∧ py_getitem (reg s) b = Some y ∧
    alu "CMP" a b (set_fl f0 s) = (Ret tt, set_fl f s) ∧
    (x < y → f = 4) ∧ (x > y → f = 2) ∧ (x = y → f = 1) ∧
    one_bit_set f.
Proof.
  intros Hreg Ha Hb.
  destruct (reg_operands s a b Hreg Ha Hb) as (x & y & Hx & Hy).
  exists x, y. eexists.
  split; [done|]. split; [done|].
  split; [by apply alu_cmp|].
  repeat case_bool_decide; split_and!; try lia.
  - apply (one_bit_set_pow2 2); lia.
  - apply (one_bit_set_pow2 1); lia.
  - apply (one_bit_set_pow2 0); lia.
Qed.

Lemma alu_cmp_flags_witness :
  ∃ x y f,
    py_getitem (reg (with_regs [5; 9; 0; 0; 0; 0; 0; 0xf4])) 0 = Some x ∧
    py_getitem (reg (with_regs [5; 9; 0; 0; 0; 0; 0; 0xf4])) 1 = Some y ∧
    alu "CMP" 0 1 (set_fl 2 (with_regs [5; 9; 0; 0; 0; 0; 0; 0xf4])) =
      (Ret tt, set_fl f (with_regs [5; 9; 0; 0; 0; 0; 0; 0xf4])) ∧
    (x < y → f = 4) ∧ (x > y → f = 2) ∧ (x = y → f = 1) ∧
    one_bit_set f.
Proof.
  apply (alu_cmp_flags (with_regs [5; 9; 0; 0; 0; 0; 0; 0xf4]) 0 1 2);
    [reflexivity | lia | lia].
Defined.

(** ** Relations that method calls respect *)

Section Respects.
Context (R : relation CPU) `{!PreOrder R}.

Lemma respects_ret {A : Type} (a : A) : respects R (mret a).
Proof. intros s o s' [= <- <-]. reflexivity. Qed.

Lemma respects_raise {A : Type} (e : exn) : respects R (@raise A e).
Proof. intros s o s' [= <- <-]. reflexivity. Qed.

Lemma respects_get {A : Type} (f : CPU → A) : respects R (get f).
Proof. intros s o s' [= <- <-]. reflexivity. Qed.

Lemma respects_bind {A B : Type} (m : M A) (k : A → M B) :
  respects R m → (∀ a, respects R (k a)) → respects R (m ≫= k).
Proof.
  intros Hm Hk s o s'. unfold mbind, M_bind.
  destruct (m s) as [[a|e] s1] eqn:E; intros H.
  - transitivity s1; [by eapply Hm | by eapply Hk].
  - simplify_eq. by eapply Hm.
Qed.

Lemma respects_put (f : CPU → CPU) : (∀ s, R s (f s)) → respects R (put f).
Proof. intros Hf s o s' [= <- <-]. apply Hf. Qed.

Lemma respects_ram_get (i : Z) : respects R (ram_get i).
Proof.
  intros s o s'. unfold ram_get. destruct (py_getitem _ _);
    intros [= <- <-]; reflexivity.
Qed.

Lemma respects_reg_get (i : Z) : respects R (reg_get i).
Proof.
  intros s o s'. unfold reg_get. destruct (py_getitem _ _);
    intros [= <- <-]; reflexivity.
Qed.

Lemma respects_ir_get : respects R ir_get.
Proof.
  intros s o s'. unfold ir_get. destruct (ir s);
    intros [= <- <-]; reflexivity.
Qed.

Context `{!AllowsData R}.

Lemma respects_ram_set (i v : Z) : respects R (ram_set i v).
Proof.
  intros s o s'. unfold ram_set.
  destruct (py_setitem _ _ _) as [r|] eqn:E; intros [= <- <-].
  - apply allows_ram. by eapply py_setitem_length.
  - reflexivity.
Qed.

Lemma respects_reg_set (i v : Z) : respects R (reg_set i v).
Proof.
  intros s o s'. unfold reg_set.
  destruct (py_setitem _ _ _) as [r|] eqn:E; intros [= <- <-].
  - apply allows_reg. by eapply py_setitem_length.
  - reflexivity.
Qed.

Lemma respects_print (v : Z) : respects R (print v).
Proof.
  unfold print. case_bool_decide; [|apply respects_raise].
  apply respects_put. intros s. apply allows_out.
Qed.

Local Ltac respects_go :=
  repeat first
    [ apply respects_bind; [|intros ?]
    | apply respects_ret | apply respects_raise | apply respects_get
    | apply respects_ram_get | apply respects_reg_get | apply respects_ir_get
    | apply respects_ram_set | apply respects_reg_set | apply respects_print
    | case_bool_decide ].

Lemma respects_ram_write (v a : Z) : respects R (ram_write v a).
Proof. apply respects_ram_set. Qed.

Lemma respects_LDI : respects R LDI.
Proof. unfold LDI. respects_go. Qed.

Lemma respects_PRN : respects R PRN.
Proof. unfold PRN, ram_read. respects_go. Qed.

Lemma respects_HLT : respects R HLT.
Proof. apply respects_raise. Qed.

Lemma respects_PUSH : respects R PUSH.
Proof. unfold PUSH, stack_pointer, stack_pointer_set. respects_go. Qed.

Lemma respects_POP : respects R POP.
Proof. unfold POP, stack_pointer, stack_pointer_set. respects_go. Qed.

Lemma respects_load_lines (program : list string) (address : Z) :
  respects R (load_lines program address).
Proof.
  revert address. induction program as [|line program IH]; intros address.
  - apply respects_ret.
  - simpl. case_bool_decide; [|apply IH].
    destruct (int_base2 _); [|apply respects_raise].
    apply respects_bind; [apply respects_ram_write | intros _; apply IH].
Qed.

(** ADD, MUL and the unsupported operations do not touch the flags. *)
Lemma respects_alu_arith (op : string) (a b : Z) :
  op ≠ "CMP"%string → respects R (alu op a b).
Proof. intros Hop. unfold alu. respects_go; contradiction. Qed.

Context `{!AllowsFlags R}.

Lemma respects_alu (op : string) (a b : Z) : respects R (alu op a b).
Proof.
  unfold alu. respects_go; apply respects_put; intros s; apply allows_fl; auto.
Qed.

Context `{!AllowsJump R}.

Lemma respects_set_pc (p : Z) : respects R (put (set_pc p)).
Proof. apply respects_put. intros s. apply allows_pc. Qed.

Lemma respects_CALL : respects R CALL.
Proof.
  unfold CALL, stack_pointer, stack_pointer_set.
  respects_go. apply respects_set_pc.
Qed.

Lemma respects_RET : respects R RET.
Proof.
  unfold RET, stack_pointer, stack_pointer_set.
  respects_go; apply respects_set_pc.
Qed.

Lemma respects_JMP : respects R JMP.
Proof. unfold JMP. respects_go. apply respects_set_pc. Qed.

Lemma respects_JEQ : respects R JEQ.
Proof. unfold JEQ. respects_go; apply respects_JMP || apply respects_set_pc. Qed.

Lemma respects_JNE : respects R JNE.
Proof. unfold JNE. respects_go; apply respects_JMP || apply respects_set_pc. Qed.
End Respects.

(** ** The branch table *)

(** Case analysis over the thirteen entries of the dictionary. *)
Lemma branchtable_cases (P : Z → handler → Prop) :
  P Op.LDI (Method LDI) → P Op.PRN (Method PRN) → P Op.HLT (Method HLT) →
  P Op.MUL (Lambda2 (λ oper_a oper_b, alu "MUL" oper_a oper_b)) →
  P Op.ADD (Lambda2 (λ oper_a oper_b, alu "ADD" oper_a oper_b)) →
  P Op.PUSH (Method PUSH) → P Op.POP (Method POP) →
  P Op.CALL (Method CALL) → P Op.RET (Method RET) →
  P Op.CMP (Lambda2 (λ oper_a oper_b, alu "CMP" oper_a oper_b)) →
  P Op.JMP (Method JMP) → P Op.JEQ (Method JEQ) → P Op.JNE (Method JNE) →
  ∀ i h, branchtable !! i = Some h → P i h.
Proof.
  intros ????????????? i h H.
  apply elem_of_list_to_map_2 in H.
  repeat (apply elem_of_cons in H as [H|H]; [by simplify_eq|]).
  by apply elem_of_nil in H.
Qed.

(** ** Decoding the opcode *)

(** [(i & (1 << k)) >> k] is bit [k] of [i]. *)
Lemma mask_shift_bit (i k : Z) :
  0 ≤ k → Z.shiftr (Z.land i (2 ^ k)) k = Z.b2z (Z.testbit i k).
Proof.
  intros Hk. apply Z.bits_inj'. intros n Hn.
  rewrite Z.shiftr_spec, Z.land_spec, Z.pow2_bits_eqb by lia.
  destruct (Z.eq_dec n 0) as [->|Hne].
  - rewrite Z.add_0_l, Z.eqb_refl, andb_true_r. by destruct (Z.testbit i k).
  - replace (k =? n + k) with false by (symmetry; apply Z.eqb_neq; lia).
    rewrite andb_false_r. destruct (Z.testbit i k); simpl.
    + symmetry. apply (Z.pow2_bits_false 0). lia.
    + symmetry. apply Z.bits_0.
Qed.

Lemma sets_pc_bit (i : Z) :
  Z.shiftr (Z.land i 0x10) 4 = Z.b2z (Z.testbit i 4).
Proof. apply (mask_shift_bit i 4). lia. Qed.

Lemma is_alu_op_bit (i : Z) :
  Z.shiftr (Z.land i 0x20) 5 = Z.b2z (Z.testbit i 5).
Proof. apply (mask_shift_bit i 5). lia. Qed.

(** [(i & 0b11000000) >> 6] is the two-bit field [(i >> 6) & 0b11]. *)
Lemma operand_count_field (i : Z) :
  Z.shiftr (Z.land i 0xc0) 6 = Z.land (Z.shiftr i 6) 3.
Proof. by rewrite Z.shiftr_land. Qed.

Lemma operand_count_range (i : Z) : 0 ≤ Z.land (Z.shiftr i 6) 3 ≤ 3.
Proof.
  change 3 with (Z.ones 2) at 1 2. rewrite Z.land_ones by lia.
  pose proof (Z.mod_pos_bound (Z.shiftr i 6) (2 ^ 2)). lia.
Qed.

(** ** One iteration of the loop *)

Section Step.
Variables (s : CPU) (i oper_a oper_b : Z).
Hypothesis Hi : py_getitem (ram s) (pc s) = Some i.

Lemma step_no_operand_a :
  py_getitem (ram s) (pc s + 1) = None →
  step s = (Raise (IndexError (pc s + 1)), set_ir (Some i) s).
Proof. intros Ha. unfold step, ram_read. by mrun. Qed.

Hypothesis Ha : py_getitem (ram s) (pc s + 1) = Some oper_a.

Lemma step_no_operand_b :
  py_getitem (ram s) (pc s + 2) = None →
  step s = (Raise (IndexError (pc s + 2)), set_ir (Some i) s).
Proof. intros Hb. unfold step, ram_read. by mrun. Qed.

Hypothesis Hb : py_getitem (ram s) (pc s + 2) = Some oper_b.

(** With the three cells readable, the iteration is the dispatch followed
    by the conditional advance, on the state with [ir] assigned. *)
Lemma step_fetch :
  step s =
    (dispatch (Z.b2z (Z.testbit i 5)) oper_a oper_b ≫= λ _,
     advance (Z.b2z (Z.testbit i 4))) (set_ir (Some i) s).
Proof.
  unfold step, ram_read. mrun. by rewrite sets_pc_bit, is_alu_op_bit.
Qed.
End Step.

Lemma dispatch_unknown (f a b i : Z) (s : CPU) :
  ir s = Some i → branchtable !! i = None →
  dispatch f a b s = (Raise (KeyError i), s).
Proof.
  intros Hir Hk. unfold dispatch, branchtable_get.
  case_bool_decide; mrun; by rewrite Hk.
Qed.

Lemma dispatch_method (a b i : Z) (s : CPU) (m : M unit) :
  ir s = Some i → Z.testbit i 5 = false → branchtable !! i = Some (Method m) →
  dispatch (Z.b2z (Z.testbit i 5)) a b s = m s.
Proof.
  intros Hir H5 Hk. unfold dispatch, branchtable_get.
  rewrite H5. cbn [Z.b2z]. rewrite bool_decide_eq_false_2 by (by intros H).
  mrun. by rewrite Hk.
Qed.

Lemma dispatch_lambda (a b i : Z) (s : CPU) (f : Z → Z → M unit) :
  ir s = Some i → Z.testbit i 5 = true → branchtable !! i = Some (Lambda2 f) →
  dispatch (Z.b2z (Z.testbit i 5)) a b s = f a b s.
Proof.
  intros Hir H5 Hk. unfold dispatch, branchtable_get.
  rewrite H5. cbn [Z.b2z]. rewrite bool_decide_eq_true_2 by done.
  mrun. by rewrite Hk.
Qed.

Lemma advance_spec (i : Z) (s : CPU) :
  ir s = Some i →
  advance (Z.b2z (Z.testbit i 4)) s =
    (Ret tt, if Z.testbit i 4 then s
             else set_pc (pc s + (Z.land (Z.shiftr i 6) 3 + 1)) s).
Proof.
  intros Hir. unfold advance.
  destruct (Z.testbit i 4); simpl; [done|].
  mrun. by rewrite operand_count_field.
Qed.

(** ** What the handlers leave alone *)

#[global] Instance keeps_preorder {A : Type} (f : CPU → A) : PreOrder (keeps f).
Proof. split; [by intros s | intros s1 s2 s3; unfold keeps; congruence]. Qed.

#[global] Instance keeps_ir_data : AllowsData (keeps ir).
Proof. by split. Qed.
#[global] Instance keeps_ir_flags : AllowsFlags (keeps ir).
Proof. by intros s f _. Qed.
#[global] Instance keeps_ir_jump : AllowsJump (keeps ir).
Proof. by intros s p. Qed.

#[global] Instance keeps_pc_data : AllowsData (keeps pc).
Proof. by split. Qed.
#[global] Instance keeps_pc_flags : AllowsFlags (keeps pc).
Proof. by intros s f _. Qed.

#[global] Instance same_shape_preorder : PreOrder same_shape.
Proof.
  split; [by intros s | intros s1 s2 s3 [??] [??]; split; congruence].
Qed.

#[global] Instance same_shape_data : AllowsData same_shape.
Proof. by split. Qed.
#[global] Instance same_shape_flags : AllowsFlags same_shape.
Proof. by intros s f _. Qed.
#[global] Instance same_shape_jump : AllowsJump same_shape.
Proof. by intros s p. Qed.
#[global] Instance same_shape_fetch : AllowsFetch same_shape.
Proof. by intros s i. Qed.

(** [apply], with the type-class premises resolved. *)
Ltac use l := apply l; try apply _.

Section Dispatch.
Context (R : relation CPU).
Context `{!PreOrder R, !AllowsData R, !AllowsFlags R, !AllowsJump R}.

Lemma respects_call (i : Z) (h : handler) (a b : Z) :
  branchtable !! i = Some h →
  respects R (call0 h) ∧ respects R (call2 h a b).
Proof.
  revert i h. apply branchtable_cases; (split; simpl;
    first [ use respects_raise | use respects_alu | use respects_LDI
          | use respects_PRN | use respects_HLT | use respects_PUSH
          | use respects_POP | use respects_CALL | use respects_RET
          | use respects_JMP | use respects_JEQ | use respects_JNE ]).
Qed.

Lemma respects_dispatch (f a b : Z) : respects R (dispatch f a b).
Proof.
  unfold dispatch. case_bool_decide;
    (use respects_bind; [use respects_ir_get | intros i]);
    intros s o s'; unfold mbind, M_bind, branchtable_get;
    destruct (branchtable !! i) as [h|] eqn:E; simpl;
    try (intros [= <- <-]; reflexivity);
    destruct (respects_call i h a b E) as [H0 H2]; [apply H2 | apply H0].
Qed.

Context `{!AllowsFetch R}.

Lemma respects_advance (f : Z) : respects R (advance f).
Proof.
  unfold advance. case_bool_decide; [|use respects_ret].
  use respects_bind; [use respects_ir_get | intros i].
  use respects_bind; [use respects_get | intros p].
  use respects_set_pc.
Qed.

Lemma respects_step : respects R step.
Proof.
  unfold step, ram_read.
  repeat first
    [ apply respects_dispatch | apply respects_advance
    | use respects_bind; [|intros ?]
    | use respects_get | use respects_ram_get | use respects_ir_get ].
  use respects_put. intros s. apply allows_ir.
Qed.
End Dispatch.

(** The handlers do not assign [ir]. *)
Lemma dispatch_keeps_ir (f a b : Z) (s s1 : CPU) (o : outcome unit) :
  dispatch f a b s = (o, s1) → ir s1 = ir s.
Proof. apply (respects_dispatch (keeps ir)). Qed.

(** An entry whose opcode has bit 4 clear does not assign [pc]. *)
Lemma dispatch_keeps_pc (f a b i : Z) (s s1 : CPU) (o : outcome unit) :
  ir s = Some i → Z.testbit i 4 = false →
  dispatch f a b s = (o, s1) → pc s1 = pc s.
Proof.
  intros Hir H4.
  assert (Hcall : ∀ h, branchtable !! i = Some h →
            respects (keeps pc) (call0 h) ∧ respects (keeps pc) (call2 h a b)).
  { clear Hir. revert i H4.
    enough (∀ i h, branchtable !! i = Some h → Z.testbit i 4 = false →
              respects (keeps pc) (call0 h) ∧ respects (keeps pc) (call2 h a b))
      by eauto.
    apply (branchtable_cases (λ i h, Z.testbit i 4 = false →
              respects (keeps pc) (call0 h) ∧ respects (keeps pc) (call2 h a b)));
      intros H4; try discriminate H4;
      (split; simpl;
       first [ apply respects_raise | apply respects_alu | apply respects_LDI
             | apply respects_PRN | apply respects_HLT | apply respects_PUSH
             | apply respects_POP ]; apply _). }
  unfold dispatch, branchtable_get. case_bool_decide; mrun;
    destruct (branchtable !! i) as [h|] eqn:E;
    try (intros [= <- <-]; reflexivity);
    destruct (Hcall h eq_refl) as [H0 H2]; [apply H2 | apply H0].
Qed.

(** ** End to end *)

(** The program of the specification prints 72 and halts. *)
Example prog_mult_prints_72 :
  ∃ s, load 5 prog_mult cpu_init = Some (SystemExit, s) ∧ out s = [72].
Proof. eexists. split; vm_compute; reflexivity. Qed.

(** ** The run loop *)

(** C4: in an iteration of the run loop that fetches opcode [i] and whose
    handler returns, leaving state [s1]: if bit 4 of [i] is clear the
    iteration ends with the program counter at [pc s1 + ((i >> 6) & 0b11) + 1]
    (and the handler has left [pc] where it was, so this is the fetch
    address plus the operand count plus one); if bit 4 is set the iteration
    ends in [s1] itself, with the program counter as the handler left it. *)
Theorem run_iteration_advance (s s1 : CPU) (i a b : Z) :
  py_getitem (ram s) (pc s) = Some i →
  py_getitem (ram s) (pc s + 1) = Some a →
  py_getitem (ram s) (pc s + 2) = Some b →
  dispatch (Z.shiftr (Z.land i 0x20) 5) a b (set_ir (Some i) s) = (Ret tt, s1) →
  step s = (Ret tt, if Z.testbit i 4 then s1
                    else set_pc (pc s1 + (Z.land (Z.shiftr i 6) 3 + 1)) s1) ∧
  (Z.testbit i 4 = false → pc s1 = pc s) ∧
  0 ≤ Z.land (Z.shiftr i 6) 3 ≤ 3.
Proof.
  intros Hi Ha Hb Hd. rewrite is_alu_op_bit in Hd.
  split; [|split].
  - rewrite (step_fetch s i a b Hi Ha Hb).
    rewrite (bind_Ret _ _ _ _ _ Hd).
    apply advance_spec. by rewrite (dispatch_keeps_ir _ _ _ _ _ _ Hd).
  - intros H4.
    by apply (dispatch_keeps_pc _ _ _ i (set_ir (Some i) s) _ _ eq_refl H4 Hd).
  - apply operand_count_range.
Qed.

Lemma run_iteration_advance_witness :
  step (loaded prog_mult) =
    (Ret tt, if Z.testbit Op.LDI 4 then ldi_returned
             else set_pc (pc ldi_returned + (Z.land (Z.shiftr Op.LDI 6) 3 + 1))
                    ldi_returned) ∧
  (Z.testbit Op.LDI 4 = false → pc ldi_returned = pc (loaded prog_mult)) ∧
  0 ≤ Z.land (Z.shiftr Op.LDI 6) 3 ≤ 3.
Proof.
  apply (run_iteration_advance (loaded prog_mult) ldi_returned Op.LDI 0 8);
    vm_compute; reflexivity.
Defined.

Example ldi_advances_by_3 :
  ∃ s, step (loaded prog_mult) = (Ret tt, s) ∧ pc s = 3.
Proof. eexists. split; vm_compute; reflexivity. Qed.

(** C6, as stated, fails: there is no [UnknownInstruction] error in cpu.py.
    The lookup in the dictionary raises a [KeyError] whose only argument is
    the opcode; the program counter (here 3, the opcode being 2) is not
    reported. *)
Lemma unknown_opcode_report_counterexample :
  ∃ s', load 2 prog_unknown cpu_init = Some (KeyError 2, s') ∧
        ir s' = Some 2 ∧ pc s' = 3 ∧
        exn_args (KeyError 2) = [2] ∧ 3 ∉ exn_args (KeyError 2).
Proof.
  eexists. split_and!; try (vm_compute; reflexivity).
  simpl. by intros [?|[]%elem_of_nil]%elem_of_cons.
Qed.

(** C6 (amended): when an iteration of the run loop fetches an opcode [i]
    that has no entry in the branch table (the two cells after it being
    readable), no handler runs and the loop stops in that iteration with the
    dictionary's [KeyError], which carries the opcode [i] and nothing else;
    the state is the one before the iteration with [ir] set to [i]. *)
Theorem run_unknown_opcode (s : CPU) (i a b : Z) (fuel : nat) :
  py_getitem (ram s) (pc s) = Some i →
  py_getitem (ram s) (pc s + 1) = Some a →
  py_getitem (ram s) (pc s + 2) = Some b →
  branchtable !! i = None →
  step s = (Raise (KeyError i), set_ir (Some i) s) ∧
  run (S fuel) s = Some (KeyError i, set_ir (Some i) s) ∧
  exn_args (KeyError i) = [i].
Proof.
  intros Hi Ha Hb Hk.
  assert (Hs : step s = (Raise (KeyError i), set_ir (Some i) s)).
  { rewrite (step_fetch s i a b Hi Ha Hb).
    apply bind_Raise. by apply dispatch_unknown. }
  split; [done|]. split; [|done]. simpl. by rewrite Hs.
Qed.

Lemma run_unknown_opcode_witness :
  step unknown_fetched = (Raise (KeyError 2), set_ir (Some 2) unknown_fetched) ∧
  run 1 unknown_fetched = Some (KeyError 2, set_ir (Some 2) unknown_fetched) ∧
  exn_args (KeyError 2) = [2].
Proof.
  apply (run_unknown_opcode unknown_fetched 2 0 0 0); vm_compute; reflexivity.
Defined.

(** C9: the run loop reads [ram[pc + 1]] and [ram[pc + 2]] before it
    dispatches, whatever the opcode.  With the program counter at 254 or
    255 the iteration therefore subscripts the memory at 256, outside
    [0,256): it ends with [IndexError] before any handler runs, also when
    the opcode is HLT or RET. *)
Theorem run_fetch_out_of_range (s : CPU) (fuel : nat) :
  length (ram s) = 256%nat →
  pc s = 254 ∨ pc s = 255 →
  ∃ i, py_getitem (ram s) (pc s) = Some i ∧
       py_getitem (ram s) 256 = None ∧
       step s = (Raise (IndexError 256), set_ir (Some i) s) ∧
       run (S fuel) s = Some (IndexError 256, set_ir (Some i) s).
Proof.
  intros Hlen Hpc.
  destruct (py_getitem_is_Some (ram s) (pc s)) as [i Hi]; [lia|].
  assert (H256 : py_getitem (ram s) 256 = None)
    by (apply py_getitem_None; lia).
  assert (Hs : step s = (Raise (IndexError 256), set_ir (Some i) s)).
  { destruct Hpc as [Hpc|Hpc].
    - destruct (py_getitem_is_Some (ram s) (pc s + 1)) as [a Ha]; [lia|].
      rewrite (step_no_operand_b s i a Hi Ha); rewrite Hpc; done.
    - rewrite (step_no_operand_a s i Hi); rewrite Hpc; done. }
  exists i. repeat split; [done..|]. simpl. by rewrite Hs.
Qed.

Lemma run_fetch_out_of_range_witness :
  ∃ i, py_getitem (ram hlt_at_255) (pc hlt_at_255) = Some i ∧
       py_getitem (ram hlt_at_255) 256 = None ∧
       step hlt_at_255 = (Raise (IndexError 256), set_ir (Some i) hlt_at_255) ∧
       run 1 hlt_at_255 = Some (IndexError 256, set_ir (Some i) hlt_at_255).
Proof.
  apply (run_fetch_out_of_range hlt_at_255 0); [reflexivity | right; reflexivity].
Defined.

(** In that state the opcode is HLT, and the machine does not halt. *)
Example hlt_at_255_raises :
  py_getitem (ram hlt_at_255) (pc hlt_at_255) = Some Op.HLT ∧
  run 1 hlt_at_255 = Some (IndexError 256, set_ir (Some Op.HLT) hlt_at_255).
Proof. split; vm_compute; reflexivity. Qed.

(** ** Stack and control transfer *)

Lemma py_getitem_lookup (l : list Z) (i v : Z) :
  py_getitem l i = Some v → 0 ≤ i → l !! Z.to_nat i = Some v.
Proof.
  unfold py_getitem, py_index. intros H Hi.
  repeat case_bool_decide; simplify_eq/=; [done | lia].
Qed.

Lemma py_setitem_of_getitem (l : list Z) (i v x : Z) :
  py_getitem l i = Some v → 0 ≤ i →
  py_setitem l i x = Some (<[Z.to_nat i := x]> l).
Proof.
  unfold py_getitem, py_setitem, py_index. intros H Hi.
  repeat case_bool_decide; simplify_eq/=; [done | lia].
Qed.

(** A subscript that can be read can be assigned, also after assignments
    elsewhere in the list. *)
Lemma py_setitem_is_Some (l l' : list Z) (i v x : Z) :
  py_getitem l i = Some v → length l' = length l →
  is_Some (py_setitem l' i x).
Proof.
  unfold py_getitem, py_setitem. intros H ->.
  destruct (py_index (length l) i); simplify_eq/=; eauto.
Qed.

Section PushPop.
Variables (s : CPU) (sp v : Z) (ram1 : list Z).
Hypothesis Hsp : py_getitem (reg s) 7 = Some sp.
Hypothesis Hv : py_getitem (ram s) (pc s + 1) = Some v.
Hypothesis Hst : py_setitem (ram s) (sp - 1) v = Some ram1.

Lemma sp_assign (x : Z) :
  py_setitem (reg s) 7 x = Some (<[7%nat := x]> (reg s)).
Proof. by rewrite (py_setitem_of_getitem _ _ sp) by (done || lia). Qed.

Lemma sp_assigned (x : Z) : py_getitem (<[7%nat := x]> (reg s)) 7 = Some x.
Proof. apply (py_getitem_setitem (reg s)), sp_assign. Qed.

Lemma PUSH_returns :
  PUSH s = (Ret tt, set_ram ram1 (set_reg (<[7%nat := sp - 1]> (reg s)) s)).
Proof.
  pose proof (sp_assign (sp - 1)). pose proof (sp_assigned (sp - 1)).
  unfold PUSH, stack_pointer, stack_pointer_set. mrun. mlast.
Qed.

Lemma POP_after_PUSH :
  ∃ ram2,
    POP (set_ram ram1 (set_reg (<[7%nat := sp - 1]> (reg s)) s)) =
      (Ret tt, set_reg (<[7%nat := sp]> (reg s))
                 (set_ram ram2 (set_reg (<[7%nat := sp - 1]> (reg s)) s))).
Proof.
  pose proof (sp_assigned (sp - 1)) as Hsp1.
  pose proof (py_getitem_setitem _ _ _ _ Hst) as Hv1.
  destruct (py_setitem_is_Some (ram s) ram1 (pc s + 1) v v Hv) as [ram2 Hst2];
    [by eapply py_setitem_length|].
  assert (py_setitem (<[7%nat := sp - 1]> (reg s)) 7 (sp - 1 + 1) =
          Some (<[7%nat := sp]> (reg s))) as Hsp2.
  { rewrite (py_setitem_of_getitem _ _ _ _ Hsp1) by lia.
    rewrite list_insert_insert_eq. do 3 f_equal. lia. }
  exists ram2. unfold POP, stack_pointer, stack_pointer_set. mrun. mlast.
Qed.
End PushPop.

(** PUSH returns only under the three conditions of the section above. *)
Lemma PUSH_returns_inv (s s1 : CPU) :
  PUSH s = (Ret tt, s1) →
  ∃ sp v ram1,
    py_getitem (reg s) 7 = Some sp ∧
    py_getitem (ram s) (pc s + 1) = Some v ∧
    py_setitem (ram s) (sp - 1) v = Some ram1.
Proof.
  unfold PUSH, stack_pointer, stack_pointer_set.
  destruct (py_getitem (reg s) 7) as [sp|] eqn:Hsp; [|by mrun].
  pose proof (sp_assign s sp Hsp (sp - 1)) as Hsp1.
  pose proof (sp_assigned s sp Hsp (sp - 1)) as Hsp2.
  destruct (py_getitem (ram s) (pc s + 1)) as [v|] eqn:Hv; [|by mrun].
  destruct (py_setitem (ram s) (sp - 1) v) as [ram1|] eqn:Hst;
    [|mrun; by rewrite ram_set_None].
  intros _. by exists sp, v, ram1.
Qed.

(** C8: for every CPU state, whenever the PUSH handler (decrement register
    7, write [mem[pc + 1]] to memory at the new register-7 address) returns,
    the POP handler that follows (copy memory at the register-7 address into
    [mem[pc + 1]], increment register 7) returns too and leaves register 7,
    indeed the whole register list, as it was before the pair.  PUSH does
    return, with these effects, whenever register 7 holds a number [sp], the
    cell [pc + 1] can be read and [sp - 1] is a memory subscript. *)
Theorem PUSH_POP_stack_pointer (s : CPU) :
  (∀ s1, PUSH s = (Ret tt, s1) →
     ∃ s2, POP s1 = (Ret tt, s2) ∧
           py_getitem (reg s2) 7 = py_getitem (reg s) 7 ∧
           reg s2 = reg s) ∧
  (∀ sp v ram1,
     py_getitem (reg s) 7 = Some sp →
     py_getitem (ram s) (pc s + 1) = Some v →
     py_setitem (ram s) (sp - 1) v = Some ram1 →
     ∃ s1, PUSH s = (Ret tt, s1) ∧
           py_getitem (reg s1) 7 = Some (sp - 1) ∧
           py_getitem (ram s1) (sp - 1) = Some v).
Proof.
  split.
  - intros s1 H.
    destruct (PUSH_returns_inv s s1 H) as (sp & v & ram1 & Hsp & Hv & Hst).
    destruct (POP_after_PUSH s sp v ram1 Hsp Hv Hst) as [ram2 Hpop].
    rewrite (PUSH_returns s sp v ram1 Hsp Hv Hst) in H. simplify_eq.
    eexists. split; [apply Hpop|]. mrun_simpl.
    assert (<[7%nat := sp]> (reg s) = reg s) as ->
      by (apply list_insert_id, (py_getitem_lookup _ 7 sp Hsp); lia).
    done.
  - intros sp v ram1 Hsp Hv Hst. eexists.
    split; [by apply (PUSH_returns s sp v ram1)|]. mrun_simpl.
    split; [by apply (sp_assigned s sp) | by eapply py_getitem_setitem].
Qed.

Lemma PUSH_POP_stack_pointer_witness :
  ∃ s1 s2,
    PUSH (loaded prog_stack) = (Ret tt, s1) ∧ POP s1 = (Ret tt, s2) ∧
    py_getitem (reg s1) 7 = Some (0xf4 - 1) ∧
    py_getitem (ram s1) (0xf4 - 1) = Some 7 ∧
    py_getitem (reg s2) 7 = Some 0xf4.
Proof.
  destruct (proj2 (PUSH_POP_stack_pointer (loaded prog_stack)) 0xf4 7
              (<[243%nat := 7]> (ram (loaded prog_stack))))
    as (s1 & H1 & Hsp1 & Hv1); [vm_compute; reflexivity..|].
  destruct (proj1 (PUSH_POP_stack_pointer (loaded prog_stack)) s1 H1)
    as (s2 & H2 & Hsp2 & _).
  exists s1, s2. split_and!; [done..|].
  rewrite Hsp2. vm_compute; reflexivity.
Defined.

(** CALL returns only if the four subscripts it uses exist. *)
Lemma CALL_returns_inv (s s1 : CPU) :
  CALL s = (Ret tt, s1) →
  ∃ sp v t ram1,
    py_getitem (reg s) 7 = Some sp ∧
    py_getitem (ram s) (pc s + 1) = Some v ∧
    py_setitem (ram s) (sp - 1) v = Some ram1 ∧
    py_getitem (<[7%nat := sp - 1]> (reg s)) (pc s + 1) = Some t.
Proof.
  unfold CALL, stack_pointer, stack_pointer_set.
  destruct (py_getitem (reg s) 7) as [sp|] eqn:Hsp; [|by mrun].
  pose proof (sp_assign s sp Hsp (sp - 1)) as Hsp1.
  pose proof (sp_assigned s sp Hsp (sp - 1)) as Hsp2.
  destruct (py_getitem (ram s) (pc s + 1)) as [v|] eqn:Hv; [|by mrun].
  destruct (py_setitem (ram s) (sp - 1) v) as [ram1|] eqn:Hst; [|by mrun].
  destruct (py_getitem (<[7%nat := sp - 1]> (reg s)) (pc s + 1))
    as [t|] eqn:Ht; [|by mrun].
  intros _. by exists sp, v, t, ram1.
Qed.

Lemma CALL_returns (s : CPU) (sp v t : Z) (ram1 : list Z) :
  py_getitem (reg s) 7 = Some sp →
  py_getitem (ram s) (pc s + 1) = Some v →
  py_setitem (ram s) (sp - 1) v = Some ram1 →
  py_getitem (<[7%nat := sp - 1]> (reg s)) (pc s + 1) = Some t →
  CALL s =
    (Ret tt, set_pc t (set_ram ram1 (set_reg (<[7%nat := sp - 1]> (reg s)) s))).
Proof.
  intros Hsp Hv Hst Ht.
  pose proof (sp_assign s sp Hsp (sp - 1)) as Hsp1.
  pose proof (sp_assigned s sp Hsp (sp - 1)) as Hsp2.
  unfold CALL, stack_pointer, stack_pointer_set. mrun. mlast.
Qed.

(** C2: with the program counter at [pc], the CALL handler, whenever it
    returns, has decremented register 7, written the raw operand byte
    [mem[pc + 1]] to memory at the new register-7 address, and then set [pc]
    to [reg[pc + 1]], the register whose index is the address [pc + 1]
    itself; it returns exactly when these subscripts exist.  The opcode has
    bit 4 set: an iteration of the run loop on CALL ends in the state the
    handler left, with no advance of [pc]. *)
Theorem CALL_effect (s : CPU) :
  (∀ s1, CALL s = (Ret tt, s1) →
     ∃ sp v t ram1,
       py_getitem (reg s) 7 = Some sp ∧
       py_getitem (ram s) (pc s + 1) = Some v ∧
       py_setitem (ram s) (sp - 1) v = Some ram1 ∧
       py_getitem (<[7%nat := sp - 1]> (reg s)) (pc s + 1) = Some t ∧
       s1 = set_pc t (set_ram ram1 (set_reg (<[7%nat := sp - 1]> (reg s)) s))) ∧
  (∀ sp v t ram1,
     py_getitem (reg s) 7 = Some sp →
     py_getitem (ram s) (pc s + 1) = Some v →
     py_setitem (ram s) (sp - 1) v = Some ram1 →
     py_getitem (<[7%nat := sp - 1]> (reg s)) (pc s + 1) = Some t →
     ∃ s1,
       s1 = set_pc t (set_ram ram1 (set_reg (<[7%nat := sp - 1]> (reg s)) s)) ∧
       CALL s = (Ret tt, s1) ∧
       py_getitem (reg s1) 7 = Some (sp - 1) ∧
       py_getitem (ram s1) (sp - 1) = Some v ∧
       pc s1 = t ∧
       ∀ b, py_getitem (ram s) (pc s) = Some Op.CALL →
            py_getitem (ram s) (pc s + 2) = Some b →
            step s = (Ret tt, set_ir (Some Op.CALL) s1)) ∧
  Z.testbit Op.CALL 4 = true.
Proof.
  split; [|split; [|done]].
  - intros s1 H.
    destruct (CALL_returns_inv s s1 H) as (sp & v & t & ram1 & Hsp & Hv & Hst & Ht).
    exists sp, v, t, ram1. split_and!; [done..|].
    rewrite (CALL_returns s sp v t ram1 Hsp Hv Hst Ht) in H. by simplify_eq.
  - intros sp v t ram1 Hsp Hv Hst Ht.
    eexists. split; [reflexivity|].
    split; [by apply (CALL_returns s sp v t ram1)|].
    split; [by apply (sp_assigned s sp)|].
    split; [by eapply py_getitem_setitem|]. split; [done|].
    intros b Hi Hb.
    rewrite (step_fetch s Op.CALL v b Hi Hv Hb).
    assert (dispatch (Z.b2z (Z.testbit Op.CALL 5)) v b (set_ir (Some Op.CALL) s)
            = CALL (set_ir (Some Op.CALL) s)) as Hd
      by (by apply (dispatch_method _ _ Op.CALL _ CALL)).
    rewrite (CALL_returns _ sp v t ram1) in Hd by done.
    rewrite (bind_Ret _ _ _ _ _ Hd). by rewrite (advance_spec Op.CALL).
Qed.

Lemma CALL_effect_witness :
  ∃ s1,
    s1 = set_pc 0 (set_ram (<[243%nat := 1]> (ram call_fetched))
           (set_reg (<[7%nat := 0xf4 - 1]> (reg call_fetched)) call_fetched)) ∧
    CALL call_fetched = (Ret tt, s1) ∧
    py_getitem (reg s1) 7 = Some (0xf4 - 1) ∧
    py_getitem (ram s1) (0xf4 - 1) = Some 1 ∧
    pc s1 = 0 ∧
    ∀ b, py_getitem (ram call_fetched) (pc call_fetched) = Some Op.CALL →
         py_getitem (ram call_fetched) (pc call_fetched + 2) = Some b →
         step call_fetched = (Ret tt, set_ir (Some Op.CALL) s1).
Proof.
  apply (proj1 (proj2 (CALL_effect call_fetched)) 0xf4 1 0
           (<[243%nat := 1]> (ram call_fetched)));
    vm_compute; reflexivity.
Defined.

(** On [prog_call] the call goes to address 0 (the content of [reg[4]]),
    although [reg[1]] holds 6, and the byte pushed is the operand 1, not
    the return address 5. *)
Example prog_call_jumps_to_reg4 :
  ∃ s, step call_fetched = (Ret tt, s) ∧ pc s = 0 ∧
       py_getitem (reg call_fetched) 1 = Some 6 ∧
       py_getitem (ram s) 243 = Some 1.
Proof. eexists. split_and!; vm_compute; reflexivity. Qed.

(** C5: JEQ jumps ([pc] becomes [reg[mem[pc + 1]]], as JMP does) when the
    flags register is exactly 1 and otherwise sets [pc] to [pc + 2]; JNE
    jumps when the flags register is not 1 and otherwise sets [pc] to
    [pc + 2]; both opcodes have bit 4 set, so an iteration of the run loop
    on either ends in the state the handler left, with no further advance. *)
Theorem JEQ_JNE_branch (s : CPU) :
  (fl s = 1 → JEQ s = JMP s ∧ JNE s = (Ret tt, set_pc (pc s + 2) s)) ∧
  (fl s ≠ 1 → JNE s = JMP s ∧ JEQ s = (Ret tt, set_pc (pc s + 2) s)) ∧
  (∀ a t, py_getitem (ram s) (pc s + 1) = Some a →
          py_getitem (reg s) a = Some t →
          JMP s = (Ret tt, set_pc t s)) ∧
  Z.testbit Op.JEQ 4 = true ∧ Z.testbit Op.JNE 4 = true ∧
  (∀ a b t,
     py_getitem (ram s) (pc s + 1) = Some a →
     py_getitem (ram s) (pc s + 2) = Some b →
     py_getitem (reg s) a = Some t →
     (py_getitem (ram s) (pc s) = Some Op.JEQ →
      step s = (Ret tt, set_ir (Some Op.JEQ)
                  (set_pc (if bool_decide (fl s = 1) then t else pc s + 2) s))) ∧
     (py_getitem (ram s) (pc s) = Some Op.JNE →
      step s = (Ret tt, set_ir (Some Op.JNE)
                  (set_pc (if bool_decide (fl s ≠ 1) then t else pc s + 2) s)))).
Proof.
  assert (Hjmp : ∀ s0 a t, py_getitem (ram s0) (pc s0 + 1) = Some a →
            py_getitem (reg s0) a = Some t → JMP s0 = (Ret tt, set_pc t s0)).
  { intros s0 a t Ha Ht. unfold JMP. mrun. mlast. }
  assert (Hjeq : ∀ s0, JEQ s0 = if bool_decide (fl s0 = 1) then JMP s0
                                else (Ret tt, set_pc (pc s0 + 2) s0)).
  { intros s0. unfold JEQ. mrun. by case_bool_decide. }
  assert (Hjne : ∀ s0, JNE s0 = if bool_decide (fl s0 ≠ 1) then JMP s0
                                else (Ret tt, set_pc (pc s0 + 2) s0)).
  { intros s0. unfold JNE. mrun. by case_bool_decide. }
  split; [|split; [|split; [|split; [|split]]]]; try done.
  - intros Hf. rewrite Hjeq, Hjne.
    by rewrite bool_decide_eq_true_2, bool_decide_eq_false_2 by (done || tauto).
  - intros Hf. rewrite Hjeq, Hjne.
    by rewrite bool_decide_eq_true_2, bool_decide_eq_false_2 by done.
  - by apply Hjmp.
  - intros a b t Ha Hb Ht. split; intros Hi.
    + rewrite (step_fetch s Op.JEQ a b Hi Ha Hb).
      assert (dispatch (Z.b2z (Z.testbit Op.JEQ 5)) a b (set_ir (Some Op.JEQ) s)
              = JEQ (set_ir (Some Op.JEQ) s)) as Hd
        by (by apply (dispatch_method _ _ Op.JEQ _ JEQ)).
      rewrite Hjeq in Hd. mrun_simpl in Hd.
      rewrite (Hjmp _ a t) in Hd by done.
      erewrite bind_Ret; [by apply (advance_spec Op.JEQ)|].
      rewrite Hd. by case_bool_decide.
    + rewrite (step_fetch s Op.JNE a b Hi Ha Hb).
      assert (dispatch (Z.b2z (Z.testbit Op.JNE 5)) a b (set_ir (Some Op.JNE) s)
              = JNE (set_ir (Some Op.JNE) s)) as Hd
        by (by apply (dispatch_method _ _ Op.JNE _ JNE)).
      rewrite Hjne in Hd. mrun_simpl in Hd.
      rewrite (Hjmp _ a t) in Hd by done.
      erewrite bind_Ret; [by apply (advance_spec Op.JNE)|].
      rewrite Hd. by case_bool_decide.
Qed.

Lemma JEQ_JNE_branch_witness :
  fl jeq_fetched = 1 ∧
  JEQ jeq_fetched = JMP jeq_fetched ∧
  JNE jeq_fetched = (Ret tt, set_pc (pc jeq_fetched + 2) jeq_fetched).
Proof.
  split; [vm_compute; reflexivity|].
  apply (proj1 (JEQ_JNE_branch jeq_fetched)). vm_compute; reflexivity.
Defined.

Example prog_jeq_taken :
  ∃ s, step jeq_fetched = (Ret tt, s) ∧ pc jeq_fetched = 6 ∧ pc s = 20.
Proof. eexists. split_and!; vm_compute; reflexivity. Qed.

Example prog_jne_not_taken :
  ∃ s, JNE jeq_fetched = (Ret tt, s) ∧ pc s = 8.
Proof. eexists. split_and!; vm_compute; reflexivity. Qed.

(** ** The loader *)

Lemma int2_digits_bound (s : string) (acc : Z) (v : Z) :
  int2_digits s acc = Some v →
  0 ≤ acc →
  acc * 2 ^ Z.of_nat (String.length s) ≤ v
    < (acc + 1) * 2 ^ Z.of_nat (String.length s).
Proof.
  revert acc. induction s as [|c s IH]; intros acc H Hacc; simpl in H.
  - simplify_eq. simpl. lia.
  - cbn [String.length]. rewrite Nat2Z.inj_succ, Z.pow_succ_r by lia.
    repeat case_bool_decide; [| |done]; apply IH in H; lia.
Qed.

Lemma ram_write_next (s : CPU) (n : nat) (v : Z) :
  (n < length (ram s))%nat →
  ram_write v (Z.of_nat n) s = (Ret tt, set_ram (<[n := v]> (ram s)) s).
Proof.
  intros Hn. apply ram_set_Some.
  rewrite py_setitem_nonneg by lia. by rewrite Nat2Z.id.
Qed.

Lemma load_lines_cons (line : string) (program : list string) (address : Z) :
  load_lines (line :: program) address =
    if bool_decide (String.length (cleaned line) = 8%nat) then
      match int_base2 (cleaned line) with
      | Some value => ram_write value address ≫= λ _, load_lines program (address + 1)
      | None => raise ValueError
      end
    else load_lines program address.
Proof. reflexivity. Qed.

Lemma load_lines_from (program : list string) (n : nat) (s : CPU) :
  Forall (λ line, is_Some (int_base2 (cleaned line))) (kept program) →
  (n + length (kept program) ≤ length (ram s))%nat →
  ∃ bytes,
    Forall2 (λ line v, int_base2 (cleaned line) = Some v) (kept program) bytes ∧
    load_lines program (Z.of_nat n) s =
      (Ret (Z.of_nat (n + length (kept program))),
       set_ram (take n (ram s) ++ bytes ++
                drop (n + length (kept program)) (ram s)) s).
Proof.
  revert n s. induction program as [|line program IH]; intros n s Hbin Hlen.
  - exists []. split; [constructor|]. simpl.
    rewrite Nat.add_0_r, take_drop. by destruct s.
  - unfold kept in *. rewrite load_lines_cons.
    rewrite filter_cons in Hbin, Hlen |- *. case_bool_decide as Hq.
    + rewrite decide_True in Hbin, Hlen |- * by done.
      apply Forall_cons in Hbin as [[v Hv] Hbin]. simpl in Hlen.
      destruct (IH (S n) (set_ram (<[n := v]> (ram s)) s)) as (bytes & HF & Hl).
      { done. }
      { simpl. rewrite length_insert. lia. }
      exists (v :: bytes). split; [by constructor|].
      rewrite Hv. rewrite (bind_Ret _ _ _ _ _ (ram_write_next s n v ltac:(lia))).
      replace (Z.of_nat n + 1) with (Z.of_nat (S n)) by lia.
      rewrite Hl. simpl.
      rewrite drop_insert_lt by lia.
      rewrite (take_S_r _ _ v) by (apply list_lookup_insert_eq; lia).
      rewrite take_insert_ge by lia.
      rewrite <- app_assoc. simpl.
      by replace (n + S (length (filter _ program)))%nat
        with (S (n + length (filter (λ l, String.length (cleaned l) = 8%nat) program)))
        by lia.
    + rewrite decide_False in Hbin, Hlen |- * by done. by apply IH.
Qed.

(** C7, as stated, fails.  The line [00000002] yields exactly 8 digits, yet
    it is not loaded: [int(..., 2)] raises [ValueError], the memory is as it
    was, and the well-formed line after it is not loaded either.  And the
    257th line that yields 8 binary digits is not loaded: the write at
    address 256 raises [IndexError]. *)
Lemma load_eight_digits_counterexample :
  (String.length (cleaned "00000002") = 8%nat ∧
   String.length (cleaned "00000001") = 8%nat ∧
   load_lines ["00000002"; "00000001"]%string 0 cpu_init
     = (Raise ValueError, cpu_init)) ∧
  (∃ s, load_lines (replicate 257 "00000001"%string) 0 cpu_init
          = (Raise (IndexError 256), s) ∧
        ram s = replicate 256 1).
Proof.
  split; [split_and!; vm_compute; reflexivity|].
  eexists. split; vm_compute; reflexivity.
Qed.

(** C7 (amended): for every sequence of input lines in which each line
    whose first 8 characters, filtered to digit characters, yield exactly 8
    digits has only the binary digits 0 and 1 there, and in which at most
    256 lines do so: exactly those lines are loaded, each one's 8 digits
    parsed as binary (a value in [0,256)) being written to the next
    consecutive memory address, starting at address 0 and counting only
    loaded lines; a line that yields fewer than 8 digits is skipped and does
    not advance the load address; the rest of the memory is untouched. *)
Theorem load_lines_image (program : list string) (s : CPU) :
  Forall (λ line, is_Some (int_base2 (cleaned line))) (kept program) →
  (length (kept program) ≤ length (ram s))%nat →
  ∃ bytes,
    Forall2 (λ line v, int_base2 (cleaned line) = Some v ∧ 0 ≤ v < 256)
      (kept program) bytes ∧
    load_lines program 0 s =
      (Ret (Z.of_nat (length (kept program))),
       set_ram (bytes ++ drop (length (kept program)) (ram s)) s).
Proof.
  intros Hbin Hlen.
  destruct (load_lines_from program 0 s Hbin) as (bytes & HF & Hl); [done|].
  exists bytes. split; [|done].
  assert (Forall (λ line, String.length (cleaned line) = 8%nat) (kept program))
    as Hk by (apply Forall_forall; intros l [? _]%list_elem_of_filter; done).
  revert Hk. clear -HF. induction HF as [|l v ls vs Hv HF IH]; intros Hk.
  - constructor.
  - apply Forall_cons in Hk as [Hl Hk]. constructor; [|by apply IH].
    split; [done|]. unfold int_base2 in Hv.
    destruct (cleaned l) as [|c r]; [done|].
    apply int2_digits_bound in Hv; [|done]. rewrite Hl in Hv. simpl in Hv. lia.
Qed.

Lemma load_lines_image_witness :
  ∃ bytes,
    Forall2 (λ line v, int_base2 (cleaned line) = Some v ∧ 0 ≤ v < 256)
      (kept prog_mult) bytes ∧
    load_lines prog_mult 0 cpu_init =
      (Ret (Z.of_nat (length (kept prog_mult))),
       set_ram (bytes ++ drop (length (kept prog_mult)) (ram cpu_init)) cpu_init).
Proof.
  apply (load_lines_image prog_mult cpu_init).
  - refine (bool_decide_unpack _ _). vm_compute. exact I.
  - vm_compute. lia.
Defined.

Example prog_mult_image :
  cleaned <$> kept prog_mult = str_take 8 <$> drop 1 prog_mult ∧
  take 12 (ram (loaded prog_mult)) =
    [Op.LDI; 0; 8; Op.LDI; 1; 9; Op.MUL; 0; 1; Op.PRN; 0; Op.HLT].
Proof. split; vm_compute; reflexivity. Qed.

(** ** The flags register *)

#[global] Instance flags_inv_preorder : PreOrder flags_inv.
Proof.
  split; [intros s H; exact H | intros s1 s2 s3 H1 H2 H; by apply H2, H1].
Qed.
#[global] Instance flags_inv_data : AllowsData flags_inv.
Proof. split; [intros s r _ H | intros s r _ H | intros s o H]; exact H. Qed.
#[global] Instance flags_inv_flags : AllowsFlags flags_inv.
Proof. intros s f Hf _. unfold flag_values. simpl. tauto. Qed.
#[global] Instance flags_inv_jump : AllowsJump flags_inv.
Proof. intros s p H. exact H. Qed.
#[global] Instance flags_inv_fetch : AllowsFetch flags_inv.
Proof. intros s i H. exact H. Qed.

#[global] Instance keeps_fl_data : AllowsData (keeps fl).
Proof. by split. Qed.
#[global] Instance keeps_fl_jump : AllowsJump (keeps fl).
Proof. by intros s p. Qed.
#[global] Instance keeps_fl_fetch : AllowsFetch (keeps fl).
Proof. by intros s i. Qed.

Lemma respects_exec (R : relation CPU)
    `{!PreOrder R, !AllowsData R, !AllowsFlags R, !AllowsJump R, !AllowsFetch R}
    (c : call) :
  respects R (exec c).
Proof.
  destruct c; cbn [exec];
    [ use respects_bind; [use respects_load_lines | intros ?; use respects_ret]
    | use respects_bind; [use respects_ram_get | intros ?; use respects_ret]
    | use respects_ram_set
    | use respects_alu
    | use respects_bind; [use respects_reg_get | intros ?; use respects_ret]
    | use respects_reg_set
    | use respects_LDI | use respects_PRN | use respects_HLT
    | use respects_PUSH | use respects_POP | use respects_CALL
    | use respects_RET | use respects_JMP | use respects_JEQ
    | use respects_JNE | use respects_step ].
Qed.

Lemma run_reachable (fuel : nat) (s s' : CPU) (e : exn) :
  reachable s → run fuel s = Some (e, s') → reachable s'.
Proof.
  revert s. induction fuel as [|fuel IH]; intros s Hs; simpl; [done|].
  destruct (step s) as [[[]|e0] s1] eqn:E.
  - apply IH. by apply (reach_call Call_run_iteration s s1 (Ret tt)).
  - intros [= <- <-]. by apply (reach_call Call_run_iteration s s1 (Raise e0)).
Qed.

Lemma load_reachable (fuel : nat) (program : list string) (s' : CPU) (e : exn) :
  load fuel program cpu_init = Some (e, s') → reachable s'.
Proof.
  unfold load. destruct (load_lines program 0 cpu_init) as [[a|e0] s1] eqn:E.
  - apply run_reachable.
    apply (reach_call (Call_load_lines program) cpu_init s1 (Ret tt));
      [constructor|]. simpl. by rewrite (bind_Ret _ _ _ _ _ E).
  - intros [= <- <-].
    apply (reach_call (Call_load_lines program) cpu_init s1 (Raise e0));
      [constructor|]. simpl. by rewrite (bind_Raise _ _ _ _ _ E).
Qed.

(** X11: in every state reachable from CPU construction by method calls,
    returning or raising, the memory has 256 cells and there are 8
    registers: no method resizes either list. *)
Lemma reachable_wf (s : CPU) : reachable s → wf s.
Proof.
  induction 1 as [|c s s' o Hs [IHram IHreg] Hex]; [by split|].
  destruct (respects_exec same_shape c s o s' Hex) as [Hram Hreg].
  split; congruence.
Qed.

(** A handler other than the one of CMP does not assign [fl]. *)
Lemma dispatch_keeps_fl (f a b i : Z) (s s1 : CPU) (o : outcome unit) :
  ir s = Some i → i ≠ Op.CMP →
  dispatch f a b s = (o, s1) → fl s1 = fl s.
Proof.
  intros Hir Hi.
  assert (Hcall : ∀ h, branchtable !! i = Some h →
            respects (keeps fl) (call0 h) ∧ respects (keeps fl) (call2 h a b)).
  { clear Hir. revert i Hi.
    enough (∀ i h, branchtable !! i = Some h → i ≠ Op.CMP →
              respects (keeps fl) (call0 h) ∧ respects (keeps fl) (call2 h a b))
      by eauto.
    apply (branchtable_cases (λ i h, i ≠ Op.CMP →
              respects (keeps fl) (call0 h) ∧ respects (keeps fl) (call2 h a b)));
      intros Hi; try done;
      (split; cbn [call0 call2];
       first [ use respects_raise | use respects_alu_arith; done
             | use respects_LDI | use respects_PRN | use respects_HLT
             | use respects_PUSH | use respects_POP | use respects_CALL
             | use respects_RET | use respects_JMP | use respects_JEQ
             | use respects_JNE ]). }
  unfold dispatch, branchtable_get. case_bool_decide; mrun;
    destruct (branchtable !! i) as [h|] eqn:E;
    try (intros [= <- <-]; reflexivity);
    destruct (Hcall h eq_refl) as [H0 H2]; [apply H2 | apply H0].
Qed.

Lemma step_no_opcode (s : CPU) :
  py_getitem (ram s) (pc s) = None → step s = (Raise (IndexError (pc s)), s).
Proof. intros H. unfold step, ram_read. by mrun. Qed.

(** An iteration of the run loop on an opcode other than CMP does not
    assign [fl]. *)
Lemma step_keeps_fl (s s' : CPU) (o : outcome unit) :
  py_getitem (ram s) (pc s) ≠ Some Op.CMP →
  step s = (o, s') → fl s' = fl s.
Proof.
  intros Hop.
  destruct (py_getitem (ram s) (pc s)) as [i|] eqn:Hi;
    [|rewrite step_no_opcode by done; by intros [= <- <-]].
  destruct (py_getitem (ram s) (pc s + 1)) as [a|] eqn:Ha;
    [|rewrite (step_no_operand_a s i) by done; by intros [= <- <-]].
  destruct (py_getitem (ram s) (pc s + 2)) as [b|] eqn:Hb;
    [|rewrite (step_no_operand_b s i a) by done; by intros [= <- <-]].
  rewrite (step_fetch s i a b Hi Ha Hb). unfold mbind at 1, M_bind.
  destruct (dispatch _ _ _ _) as [[[]|e] s1] eqn:Hd; intros H.
  - apply (respects_advance (keeps fl)) in H. unfold keeps in H. rewrite H.
    apply (dispatch_keeps_fl _ _ _ i (set_ir (Some i) s) _ _ eq_refl) in Hd;
      [done|congruence].
  - simplify_eq.
    apply (dispatch_keeps_fl _ _ _ i (set_ir (Some i) s) _ _ eq_refl) in Hd;
      [done|congruence].
Qed.

#[global] Instance compares_dec (c : call) (s : CPU) : Decision (compares c s).
Proof. destruct c; simpl; apply _. Defined.

(** Only a CMP assigns [fl]. *)
Lemma exec_keeps_fl (c : call) (s s' : CPU) (o : outcome unit) :
  ¬ compares c s → exec c s = (o, s') → fl s' = fl s.
Proof.
  destruct c; simpl; intros Hc;
    try (by apply step_keeps_fl);
    try (by apply (respects_alu_arith (keeps fl)));
    first [ apply (respects_bind (keeps fl));
              [|intros ?; apply respects_ret; apply _]
          | idtac ];
    first [ apply (respects_load_lines (keeps fl))
          | apply (respects_ram_get (keeps fl))
          | apply (respects_ram_set (keeps fl))
          | apply (respects_reg_get (keeps fl))
          | apply (respects_reg_set (keeps fl))
          | apply (respects_LDI (keeps fl)) | apply (respects_PRN (keeps fl))
          | apply (respects_HLT (keeps fl)) | apply (respects_PUSH (keeps fl))
          | apply (respects_POP (keeps fl)) | apply (respects_CALL (keeps fl))
          | apply (respects_RET (keeps fl)) | apply (respects_JMP (keeps fl))
          | apply (respects_JEQ (keeps fl)) | apply (respects_JNE (keeps fl)) ].
Qed.

#[global] Instance flags_step_preorder : PreOrder flags_step.
Proof.
  split; [by left | intros s1 s2 s3 H1 [H2|H2]; unfold flags_step in *];
    [rewrite H2; exact H1 | by right].
Qed.
#[global] Instance flags_step_data : AllowsData flags_step.
Proof. split; by left. Qed.
#[global] Instance flags_step_flags : AllowsFlags flags_step.
Proof. intros s f Hf. by right. Qed.
#[global] Instance flags_step_jump : AllowsJump flags_step.
Proof. intros s p. by left. Qed.
#[global] Instance flags_step_fetch : AllowsFetch flags_step.
Proof. intros s i. by left. Qed.

(** The ALU's CMP returns with the flag of the comparison, or raises with
    nothing changed. *)
Lemma alu_CMP_returns (s : CPU) (a b x y : Z) :
  py_getitem (reg s) a = Some x →
  py_getitem (reg s) b = Some y →
  alu "CMP" a b s =
    (Ret tt, set_fl (if bool_decide (x < y) then 4
                     else if bool_decide (x > y) then 2 else 1) s).
Proof.
  intros Hx Hy. unfold alu.
  rewrite !(bool_decide_eq_false_2 ("CMP"%string = _)) by done.
  rewrite bool_decide_eq_true_2 by done.
  mrun. case_bool_decide; [done|]. mrun. case_bool_decide; [done|].
  mrun. case_bool_decide; [done|lia].
Qed.

Lemma alu_CMP_inv (s s' : CPU) (a b : Z) (o : outcome unit) :
  alu "CMP" a b s = (o, s') →
  (∃ x y, py_getitem (reg s) a = Some x ∧ py_getitem (reg s) b = Some y ∧
          o = Ret tt ∧
          s' = set_fl (if bool_decide (x < y) then 4
                       else if bool_decide (x > y) then 2 else 1) s) ∨
  (∃ e, o = Raise e ∧ s' = s).
Proof.
  destruct (py_getitem (reg s) a) as [x|] eqn:Hx;
    [destruct (py_getitem (reg s) b) as [y|] eqn:Hy|].
  - rewrite (alu_CMP_returns s a b x y Hx Hy). intros [= <- <-].
    left. by exists x, y.
  - unfold alu. rewrite !(bool_decide_eq_false_2 ("CMP"%string = _)) by done.
    rewrite bool_decide_eq_true_2 by done. mrun.
    intros [= <- <-]. right. by eexists.
  - unfold alu. rewrite !(bool_decide_eq_false_2 ("CMP"%string = _)) by done.
    rewrite bool_decide_eq_true_2 by done. mrun.
    intros [= <- <-]. right. by eexists.
Qed.

(** An iteration of the run loop on the CMP opcode: it returns with the
    flag of the comparison, or raises with the flags as they were. *)
Lemma step_CMP_inv (s s' : CPU) (o : outcome unit) :
  py_getitem (ram s) (pc s) = Some Op.CMP →
  step s = (o, s') →
  (∃ x y, o = Ret tt ∧
          fl s' = (if bool_decide (x < y) then 4
                   else if bool_decide (x > y) then 2 else 1)) ∨
  (∃ e, o = Raise e ∧ fl s' = fl s).
Proof.
  intros Hi H.
  destruct (py_getitem (ram s) (pc s + 1)) as [a|] eqn:Ha.
  2: { rewrite (step_no_operand_a s Op.CMP) in H by done. simplify_eq.
       right. by eexists. }
  destruct (py_getitem (ram s) (pc s + 2)) as [b|] eqn:Hb.
  2: { rewrite (step_no_operand_b s Op.CMP a) in H by done. simplify_eq.
       right. by eexists. }
  rewrite (step_fetch s Op.CMP a b Hi Ha Hb) in H.
  unfold mbind at 1, M_bind in H.
  rewrite (dispatch_lambda a b Op.CMP (set_ir (Some Op.CMP) s)
             (alu "CMP") eq_refl eq_refl eq_refl) in H.
  destruct (alu "CMP" a b (set_ir (Some Op.CMP) s)) as [o1 s1] eqn:Halu.
  destruct (alu_CMP_inv _ _ _ _ _ Halu)
    as [(x & y & _ & _ & -> & ->)|(e & -> & ->)].
  - rewrite (advance_spec Op.CMP) in H by done. simplify_eq.
    left. by exists x, y.
  - simplify_eq. right. by eexists.
Qed.

(** C10: in every state reachable from CPU construction by method calls
    (returning or raising), the flags register holds 0, 1, 2 or 4.  It is 0
    after construction.  A call leaves it unchanged unless the call is a
    CMP (the ALU called with ["CMP"], or a run-loop iteration on the CMP
    opcode).  Every CMP that returns has compared two registers and leaves
    the flags register at exactly one of 1, 2 and 4, whatever it held
    before; a CMP that raises (a register index out of range, an operand
    cell outside the memory) has compared nothing and leaves it
    unchanged. *)
Theorem flags_register_values (s : CPU) :
  reachable s →
  flag_values (fl s) ∧
  fl cpu_init = 0 ∧
  (∀ c o s', exec c s = (o, s') →
     fl s' = fl s ∨ (compares c s ∧ (fl s' = 1 ∨ fl s' = 2 ∨ fl s' = 4))) ∧
  (∀ c s', compares c s → exec c s = (Ret tt, s') →
     fl s' = 1 ∨ fl s' = 2 ∨ fl s' = 4) ∧
  (∀ c e s', compares c s → exec c s = (Raise e, s') → fl s' = fl s).
Proof.
  intros Hs. split_and!; [| done | | |].
  - induction Hs as [|c s s' o Hs IH Hex]; [by left|].
    by apply (respects_exec flags_inv c s o s' Hex).
  - intros c o s' Hex. destruct (decide (compares c s)) as [Hc|Hc].
    + destruct (respects_exec flags_step c s o s' Hex) as [H|H]; [by left|].
      right. by split.
    + left. by apply (exec_keeps_fl c s s' o).
  - intros c s' Hc Hex. destruct c; simpl in Hc, Hex; try done.
    + subst op.
      destruct (alu_CMP_inv _ _ _ _ _ Hex)
        as [(x & y & _ & _ & _ & ->)|(e & ? & _)]; [|done].
      cbn [fl set_fl]. repeat case_bool_decide; auto.
    + destruct (step_CMP_inv _ _ _ Hc Hex)
        as [(x & y & _ & ->)|(e & ? & _)]; [|done].
      repeat case_bool_decide; auto.
  - intros c e s' Hc Hex. destruct c; simpl in Hc, Hex; try done.
    + subst op.
      by destruct (alu_CMP_inv _ _ _ _ _ Hex)
        as [(x & y & _ & _ & ? & _)|(e' & _ & ->)].
    + by destruct (step_CMP_inv _ _ _ Hc Hex)
        as [(x & y & ? & _)|(e' & _ & ?)].
Qed.

Lemma flags_register_values_witness :
  flag_values (fl cmp_fetched) ∧
  fl cpu_init = 0 ∧
  (∀ c o s', exec c cmp_fetched = (o, s') →
     fl s' = fl cmp_fetched ∨
     (compares c cmp_fetched ∧ (fl s' = 1 ∨ fl s' = 2 ∨ fl s' = 4))) ∧
  (∀ c s', compares c cmp_fetched → exec c cmp_fetched = (Ret tt, s') →
     fl s' = 1 ∨ fl s' = 2 ∨ fl s' = 4) ∧
  (∀ c e s', compares c cmp_fetched → exec c cmp_fetched = (Raise e, s') →
     fl s' = fl cmp_fetched).
Proof.
  apply (flags_register_values cmp_fetched).
  apply (reach_call Call_run_iteration (step (loaded prog_cmp)).2 _ (Ret tt));
    [|vm_compute; reflexivity].
  apply (reach_call Call_run_iteration (loaded prog_cmp) _ (Ret tt));
    [|vm_compute; reflexivity].
  apply (reach_call (Call_load_lines prog_cmp) cpu_init _ (Ret tt));
    [constructor | vm_compute; reflexivity].
Defined.

(** The iteration on CMP in [cmp_fetched], where the flags register is
    still 0, leaves it at 4: [reg[0] = 5] is less than [reg[1] = 9]. *)
Example cmp_sets_less_flag :
  fl cmp_fetched = 0 ∧ compares Call_run_iteration cmp_fetched ∧
  ∃ s', exec Call_run_iteration cmp_fetched = (Ret tt, s') ∧ fl s' = 4.
Proof.
  split_and!; [vm_compute; reflexivity..|].
  eexists. split; vm_compute; reflexivity.
Qed.

Example cmp_sets_equal_flag : fl (loaded prog_jeq) = 0 ∧ fl jeq_fetched = 1.
Proof. split; vm_compute; reflexivity. Qed.

(** * Further properties *)

(** ** A calculus of method bodies *)

Lemma wp_intro {A : Type} (m : M A) (Q : A → CPU → Prop)
    (E : exn → CPU → Prop) (s : CPU) :
  (∀ a s', m s = (Ret a, s') → Q a s') →
  (∀ e s', m s = (Raise e, s') → E e s') →
  wp m Q E s.
Proof. unfold wp. destruct (m s) as [[a|e] s']; eauto. Qed.

Lemma wp_Ret {A : Type} (m : M A) (Q : A → CPU → Prop)
    (E : exn → CPU → Prop) (s s' : CPU) (a : A) :
  wp m Q E s → m s = (Ret a, s') → Q a s'.
Proof. unfold wp. intros H Hm. by rewrite Hm in H. Qed.

Lemma wp_Raise {A : Type} (m : M A) (Q : A → CPU → Prop)
    (E : exn → CPU → Prop) (s s' : CPU) (e : exn) :
  wp m Q E s → m s = (Raise e, s') → E e s'.
Proof. unfold wp. intros H Hm. by rewrite Hm in H. Qed.

Lemma wp_bind {A B : Type} (m : M A) (k : A → M B) (Q : B → CPU → Prop)
    (E : exn → CPU → Prop) (s : CPU) :
  wp m (λ a s', wp (k a) Q E s') E s → wp (m ≫= k) Q E s.
Proof.
  unfold wp, mbind, M_bind. by destruct (m s) as [[a|e] s'].
Qed.

Lemma wp_ret {A : Type} (a : A) (Q : A → CPU → Prop)
    (E : exn → CPU → Prop) (s : CPU) :
  Q a s → wp (mret a) Q E s.
Proof. done. Qed.

Lemma wp_raise {A : Type} (e : exn) (Q : A → CPU → Prop)
    (E : exn → CPU → Prop) (s : CPU) :
  E e s → wp (raise e) Q E s.
Proof. done. Qed.

Lemma wp_get {A : Type} (f : CPU → A) (Q : A → CPU → Prop)
    (E : exn → CPU → Prop) (s : CPU) :
  Q (f s) s → wp (get f) Q E s.
Proof. done. Qed.

Lemma wp_put (f : CPU → CPU) (Q : unit → CPU → Prop)
    (E : exn → CPU → Prop) (s : CPU) :
  Q tt (f s) → wp (put f) Q E s.
Proof. done. Qed.

Lemma wp_ram_get (i : Z) (Q : Z → CPU → Prop) (E : exn → CPU → Prop) (s : CPU) :
  (∀ v, py_getitem (ram s) i = Some v → Q v s) →
  (py_getitem (ram s) i = None → E (IndexError i) s) →
  wp (ram_get i) Q E s.
Proof. unfold wp, ram_get. destruct (py_getitem _ _); eauto. Qed.

Lemma wp_reg_get (i : Z) (Q : Z → CPU → Prop) (E : exn → CPU → Prop) (s : CPU) :
  (∀ v, py_getitem (reg s) i = Some v → Q v s) →
  (py_getitem (reg s) i = None → E (IndexError i) s) →
  wp (reg_get i) Q E s.
Proof. unfold wp, reg_get. destruct (py_getitem _ _); eauto. Qed.

Lemma wp_ram_set (i v : Z) (Q : unit → CPU → Prop) (E : exn → CPU → Prop)
    (s : CPU) :
  (∀ r, py_setitem (ram s) i v = Some r → Q tt (set_ram r s)) →
  (py_setitem (ram s) i v = None → E (IndexError i) s) →
  wp (ram_set i v) Q E s.
Proof. unfold wp, ram_set. destruct (py_setitem _ _ _); eauto. Qed.

Lemma wp_reg_set (i v : Z) (Q : unit → CPU → Prop) (E : exn → CPU → Prop)
    (s : CPU) :
  (∀ r, py_setitem (reg s) i v = Some r → Q tt (set_reg r s)) →
  (py_setitem (reg s) i v = None → E (IndexError i) s) →
  wp (reg_set i v) Q E s.
Proof. unfold wp, reg_set. destruct (py_setitem _ _ _); eauto. Qed.

(** One step through a body: the rule of its first action, with what that
    action read or wrote as new hypotheses. *)
Ltac wp_one :=
  lazymatch goal with
  | |- wp (_ ≫= _) _ _ _ => apply wp_bind
  | |- wp (get _) _ _ _ => apply wp_get
  | |- wp (put _) _ _ _ => apply wp_put
  | |- wp (mret _) _ _ _ => apply wp_ret
  | |- wp (raise _) _ _ _ => apply wp_raise
  | |- wp (ram_get _) _ _ _ =>
      apply wp_ram_get; cbv beta; mrun_simpl; [intros ? ?|intros ?]
  | |- wp (reg_get _) _ _ _ =>
      apply wp_reg_get; cbv beta; mrun_simpl; [intros ? ?|intros ?]
  | |- wp (ram_set _ _) _ _ _ =>
      apply wp_ram_set; cbv beta; mrun_simpl; [intros ? ?|intros ?]
  | |- wp (reg_set _ _) _ _ _ =>
      apply wp_reg_set; cbv beta; mrun_simpl; [intros ? ?|intros ?]
  | |- wp (if bool_decide _ then _ else _) _ _ _ => case_bool_decide
  | |- wp JMP _ _ _ => unfold JMP
  end; cbv beta; mrun_simpl.

Ltac wp_go :=
  unfold LDI, PRN, HLT, PUSH, POP, CALL, RET, JMP, JEQ, JNE, alu, print,
    ram_read, ram_write, stack_pointer, stack_pointer_set;
  repeat wp_one.

(** ** What the run loop calls *)

(** An inversion of one iteration of the loop: it stops at one of the three
    reads, or the handler raises, or the handler returns and the program
    counter advances if bit 4 of the opcode is clear. *)
Lemma step_inv (s s' : CPU) (o : outcome unit) :
  step s = (o, s') →
  (py_getitem (ram s) (pc s) = None ∧ o = Raise (IndexError (pc s)) ∧ s' = s) ∨
  ∃ i, py_getitem (ram s) (pc s) = Some i ∧
    ((py_getitem (ram s) (pc s + 1) = None ∧
      o = Raise (IndexError (pc s + 1)) ∧ s' = set_ir (Some i) s) ∨
     ∃ a, py_getitem (ram s) (pc s + 1) = Some a ∧
       ((py_getitem (ram s) (pc s + 2) = None ∧
         o = Raise (IndexError (pc s + 2)) ∧ s' = set_ir (Some i) s) ∨
        ∃ b, py_getitem (ram s) (pc s + 2) = Some b ∧
          ((∃ e, dispatch (Z.b2z (Z.testbit i 5)) a b (set_ir (Some i) s)
                   = (Raise e, s') ∧ o = Raise e) ∨
           (∃ s1, dispatch (Z.b2z (Z.testbit i 5)) a b (set_ir (Some i) s)
                    = (Ret tt, s1) ∧ o = Ret tt ∧
                  s' = if Z.testbit i 4 then s1
                       else set_pc (pc s1 + (Z.land (Z.shiftr i 6) 3 + 1)) s1)))).
Proof.
  intros H.
  destruct (py_getitem (ram s) (pc s)) as [i|] eqn:Hi.
  2: { rewrite step_no_opcode in H by done. simplify_eq. by left. }
  right. exists i. split; [done|].
  destruct (py_getitem (ram s) (pc s + 1)) as [a|] eqn:Ha.
  2: { rewrite (step_no_operand_a s i) in H by done. simplify_eq. by left. }
  right. exists a. split; [done|].
  destruct (py_getitem (ram s) (pc s + 2)) as [b|] eqn:Hb.
  2: { rewrite (step_no_operand_b s i a) in H by done. simplify_eq. by left. }
  right. exists b. split; [done|].
  rewrite (step_fetch s i a b Hi Ha Hb) in H. unfold mbind at 1, M_bind in H.
  destruct (dispatch _ _ _ _) as [[[]|e] s1] eqn:Hd.
  - rewrite advance_spec in H
      by (by rewrite (dispatch_keeps_ir _ _ _ _ _ _ Hd)).
    simplify_eq. right. by exists s1.
  - simplify_eq. left. by exists e.
Qed.

(** For an opcode of the table the loop calls that opcode's own handler,
    with the number of arguments the handler takes; for any other opcode
    the lookup raises. *)
Lemma dispatch_invokes (a b i : Z) (s s1 : CPU) (o : outcome unit) :
  ir s = Some i →
  dispatch (Z.b2z (Z.testbit i 5)) a b s = (o, s1) →
  (branchtable !! i = None ∧ o = Raise (KeyError i) ∧ s1 = s) ∨
  ∃ m, invokes i a b m ∧ m s = (o, s1).
Proof.
  intros Hir H. destruct (branchtable !! i) as [h|] eqn:E.
  - right. revert i h E s s1 o Hir H.
    apply (branchtable_cases (λ i h, ∀ s s1 o, ir s = Some i →
             dispatch (Z.b2z (Z.testbit i 5)) a b s = (o, s1) →
             ∃ m, invokes i a b m ∧ m s = (o, s1)));
      intros s s1 o Hir H;
      first [ rewrite (dispatch_method a b _ s _ Hir eq_refl eq_refl) in H
            | rewrite (dispatch_lambda a b _ s _ Hir eq_refl eq_refl) in H ];
      (eexists; split; [constructor | exact H]).
  - left. rewrite (dispatch_unknown _ a b i s Hir E) in H. by simplify_eq.
Qed.

(** The exceptions a handler raises when the loop calls it: [IndexError],
    [SystemExit] from HLT, and [ValueError] from PRN when the number to
    print has too many digits.  The last two leave the state as it was. *)
Lemma invokes_raises (i a b : Z) (m : M unit) (s : CPU) :
  invokes i a b m →
  wp m (λ _ _, True)
       (λ e s', (∃ j, e = IndexError j) ∨
                (e = SystemExit ∧ i = Op.HLT ∧ s' = s) ∨
                (e = ValueError ∧ i = Op.PRN ∧ s' = s ∧
                 ∃ r x, py_getitem (ram s) (pc s + 1) = Some r ∧
                        py_getitem (reg s) r = Some x ∧
                        10 ^ int_max_str_digits ≤ Z.abs x)) s.
Proof.
  destruct 1; wp_go; try done; eauto.
  right. right. split_and!; try done.
  eexists _, _. split_and!; [eassumption..|]. by apply Z.nlt_ge.
Qed.

Lemma step_raises (s s' : CPU) (e : exn) :
  step s = (Raise e, s') →
  (∃ j, e = IndexError j) ∨
  (∃ k, e = KeyError k ∧ branchtable !! k = None ∧
        py_getitem (ram s) (pc s) = Some k ∧ s' = set_ir (Some k) s) ∨
  (e = SystemExit ∧ py_getitem (ram s) (pc s) = Some Op.HLT ∧
   s' = set_ir (Some Op.HLT) s) ∨
  (e = ValueError ∧ py_getitem (ram s) (pc s) = Some Op.PRN ∧
   s' = set_ir (Some Op.PRN) s ∧
   ∃ r x, py_getitem (ram s) (pc s + 1) = Some r ∧
          py_getitem (reg s) r = Some x ∧
          10 ^ int_max_str_digits ≤ Z.abs x).
Proof.
  intros H.
  destruct (step_inv s s' _ H) as
    [(_ & ? & _)|(i & Hi & [(_ & ? & _)|(a & Ha & [(_ & ? & _)|(b & Hb & Hd)])])];
    simplify_eq; eauto.
  destruct Hd as [(e' & Hd & ?)|(s1 & _ & ? & _)]; simplify_eq.
  destruct (dispatch_invokes a b i (set_ir (Some i) s) _ _ eq_refl Hd)
    as [(Hk & ? & ?)|(m & Hm & Hms)]; simplify_eq.
  - right. left. by exists i.
  - pose proof (wp_Raise _ _ _ _ _ _ (invokes_raises i a b m _ Hm) Hms)
      as [?|[(? & ? & ?)|(? & ? & ? & Hx)]]; simplify_eq; eauto 10.
Qed.

(** X6: the run loop ends in four ways only: an [IndexError] (a subscript
    out of range), the [KeyError] of an opcode [k] that is not in the branch
    table, the [SystemExit] of HLT, or the [ValueError] of a PRN whose
    register holds a number of more than 4300 decimal digits, which
    [print] cannot format.  In the last three cases [ir] holds the opcode
    the loop stopped on.  It never ends by a [TypeError] (a handler called
    with the wrong number of arguments) or by the ALU's "Unsupported ALU
    operation". *)
Theorem run_stops_by (fuel : nat) (s s' : CPU) (e : exn) :
  run fuel s = Some (e, s') →
  (∃ j, e = IndexError j) ∨
  (∃ k, e = KeyError k ∧ branchtable !! k = None ∧ ir s' = Some k) ∨
  (e = SystemExit ∧ ir s' = Some Op.HLT) ∨
  (e = ValueError ∧ ir s' = Some Op.PRN ∧
   ∃ r x, py_getitem (ram s') (pc s' + 1) = Some r ∧
          py_getitem (reg s') r = Some x ∧
          10 ^ int_max_str_digits ≤ Z.abs x).
Proof.
  revert s. induction fuel as [|fuel IH]; intros s; simpl; [done|].
  destruct (step s) as [[[]|e0] s1] eqn:E; [apply IH|].
  intros [= <- <-].
  destruct (step_raises s s1 e0 E)
    as [?|[(k & ? & ? & _ & ->)|[(? & _ & ->)|(? & _ & -> & Hx)]]];
    eauto 10.
Qed.

Lemma run_stops_by_witness :
  ∃ s', run 13 (loaded prog_square) = Some (ValueError, s') ∧
    ((∃ j, ValueError = IndexError j) ∨
     (∃ k, ValueError = KeyError k ∧ branchtable !! k = None ∧
           ir s' = Some k) ∨
     (ValueError = SystemExit ∧ ir s' = Some Op.HLT) ∨
     (ValueError = ValueError ∧ ir s' = Some Op.PRN ∧
      ∃ r x, py_getitem (ram s') (pc s' + 1) = Some r ∧
             py_getitem (reg s') r = Some x ∧
             10 ^ int_max_str_digits ≤ Z.abs x)).
Proof.
  eexists. split; [vm_compute; reflexivity|].
  apply (run_stops_by 13 (loaded prog_square)). vm_compute; reflexivity.
Defined.

(** The program of the specification stops by HLT; [prog_square] stops on
    its PRN, with nothing printed. *)
Example run_stops_examples :
  (∃ s, run 5 (loaded prog_mult) = Some (SystemExit, s) ∧ out s = [72]) ∧
  (∃ s, run 13 (loaded prog_square) = Some (ValueError, s) ∧ out s = [] ∧
        py_getitem (reg s) 0 = Some (2 ^ 14336)).
Proof. split; eexists; split_and!; vm_compute; reflexivity. Qed.

(** ** Memory cells stay bytes *)

Lemma wp_elim {A : Type} (m : M A) (P : CPU → Prop) (s s' : CPU)
    (o : outcome A) :
  wp m (λ _, P) (λ _, P) s → m s = (o, s') → P s'.
Proof. unfold wp. intros H Hm. rewrite Hm in H. by destruct o. Qed.

Lemma bytes_getitem (l : list Z) (i v : Z) :
  Forall byte l → py_getitem l i = Some v → byte v.
Proof.
  unfold py_getitem. intros Hl H.
  destruct (py_index _ _) as [n|]; simplify_eq/=. by eapply Forall_lookup_1.
Qed.

Lemma bytes_setitem (l r : list Z) (i v : Z) :
  Forall byte l → byte v → py_setitem l i v = Some r → Forall byte r.
Proof.
  unfold py_setitem. intros Hl Hv H.
  destruct (py_index _ _) as [n|]; simplify_eq/=. by apply Forall_insert.
Qed.

Lemma int_base2_byte (s : string) (v : Z) :
  String.length s = 8%nat → int_base2 s = Some v → byte v.
Proof.
  intros Hlen Hv. unfold int_base2 in Hv. destruct s as [|c r]; [done|].
  apply int2_digits_bound in Hv; [|done]. rewrite Hlen in Hv.
  unfold byte. simpl in Hv. lia.
Qed.

(** No handler puts anything but a byte into a memory of bytes. *)
Lemma invokes_bytes (i a b : Z) (m : M unit) (s : CPU) :
  invokes i a b m → Forall byte (ram s) →
  wp m (λ _ s', Forall byte (ram s')) (λ _ s', Forall byte (ram s')) s.
Proof.
  destruct 1; intros Hs; wp_go; eauto using bytes_getitem, bytes_setitem.
Qed.

Lemma load_lines_bytes (program : list string) (address : Z) (s : CPU) :
  Forall byte (ram s) →
  wp (load_lines program address)
     (λ _ s', Forall byte (ram s')) (λ _ s', Forall byte (ram s')) s.
Proof.
  revert address s. induction program as [|line program IH]; intros address s Hs.
  - by apply wp_ret.
  - rewrite load_lines_cons. case_bool_decide as Hq; [|by apply IH].
    destruct (int_base2 (cleaned line)) as [v|] eqn:Hv; [|by apply wp_raise].
    apply wp_bind. unfold ram_write.
    apply wp_ram_set; [intros r Hr|done]. apply IH. mrun_simpl.
    eauto using bytes_setitem, int_base2_byte.
Qed.

(** X7: while a machine is used as [load] uses it (fill the memory from the
    lines of a file, then run), every memory cell holds a byte, a number in
    [0,256), and so does [ir] once an opcode was fetched: the loader writes
    8-digit binary numerals and PUSH, POP and CALL copy memory cells.  (The
    registers are not bounded in this way.) *)
Theorem running_bytes (s : CPU) :
  running s → Forall byte (ram s) ∧ ∀ i, ir s = Some i → byte i.
Proof.
  induction 1 as [program o s Hload|s s' o Hs [IHram IHir] Hstep].
  - split.
    + apply (wp_elim _ _ _ _ _ (load_lines_bytes program 0 cpu_init
               ltac:(by apply Forall_replicate)) Hload).
    + intros i. by rewrite (respects_load_lines (keeps ir) program 0 _ _ _ Hload).
  - destruct (step_inv s s' o Hstep) as
      [(_ & _ & ->)|(i & Hi & [(_ & _ & ->)|(a & Ha & [(_ & _ & ->)|(b & Hb & Hd)])])];
      [done|split; [done|intros ? [= <-]; by eapply bytes_getitem]..|].
    assert (∀ o1 s1,
      dispatch (Z.b2z (Z.testbit i 5)) a b (set_ir (Some i) s) = (o1, s1) →
      Forall byte (ram s1) ∧ ir s1 = Some i) as Hdisp.
    { intros o1 s1 Hd1. split; [|by apply (dispatch_keeps_ir _ _ _ _ _ _ Hd1)].
      destruct (dispatch_invokes a b i (set_ir (Some i) s) _ _ eq_refl Hd1)
        as [(_ & _ & ->)|(m & Hm & Hms)]; [done|].
      by apply (wp_elim _ _ _ _ _
                  (invokes_bytes i a b m (set_ir (Some i) s) Hm IHram) Hms). }
    assert (byte i) as Hbi by (by eapply bytes_getitem).
    destruct Hd as [(e & Hd & _)|(s1 & Hd & _ & ->)];
      destruct (Hdisp _ _ Hd) as [Hram Hir].
    + split; [done|]. intros ?. rewrite Hir. by intros [= <-].
    + assert ((if Z.testbit i 4 then s1
               else set_pc (pc s1 + (Z.land (Z.shiftr i 6) 3 + 1)) s1)
              = set_pc (if Z.testbit i 4 then pc s1
                        else pc s1 + (Z.land (Z.shiftr i 6) 3 + 1)) s1) as ->
        by (destruct (Z.testbit i 4); [by destruct s1|done]).
      split; [done|]. intros ?. mrun_simpl. rewrite Hir. by intros [= <-].
Qed.

Lemma run_running (fuel : nat) (s s' : CPU) (e : exn) :
  running s → run fuel s = Some (e, s') → running s'.
Proof.
  revert s. induction fuel as [|fuel IH]; intros s Hs; simpl; [done|].
  destruct (step s) as [[[]|e0] s1] eqn:E.
  - apply IH. by apply (running_step s s1 (Ret tt)).
  - intros [= <- <-]. by apply (running_step s s1 (Raise e0)).
Qed.

(** The state in which [load] ends is one of them. *)
Lemma load_running (fuel : nat) (program : list string) (s' : CPU) (e : exn) :
  load fuel program cpu_init = Some (e, s') → running s'.
Proof.
  unfold load. destruct (load_lines program 0 cpu_init) as [[a|e0] s1] eqn:E.
  - apply run_running. by apply (running_loaded program (Ret a)).
  - intros [= <- <-]. by apply (running_loaded program (Raise e0)).
Qed.

Lemma running_bytes_witness :
  Forall byte (ram jeq_fetched) ∧ ∀ i, ir jeq_fetched = Some i → byte i.
Proof.
  apply (running_bytes jeq_fetched).
  apply (running_step (step (loaded prog_jeq)).2 _ (Ret tt));
    [|vm_compute; reflexivity].
  apply (running_step (loaded prog_jeq) _ (Ret tt)); [|vm_compute; reflexivity].
  apply (running_loaded prog_jeq (Ret 9)). vm_compute; reflexivity.
Defined.

(** ** What an iteration leaves alone *)

Lemma frame_refl (i : Z) (s : CPU) : frame i s s.
Proof. unfold frame. auto. Qed.

Lemma invokes_frame (i a b : Z) (m : M unit) (s : CPU) :
  invokes i a b m →
  wp m (λ _ s', frame i s s') (λ _ s', frame i s s') s.
Proof.
  destruct 1; wp_go; unfold frame; mrun_simpl;
    (split_and!; [intros Hi..|]; try done; eauto;
     exfalso; apply Hi; set_solver).
Qed.

(** X8: an iteration of the run loop changes the memory only if its opcode
    is PUSH, POP or CALL, the registers only if its opcode is LDI, ADD, MUL,
    PUSH, POP, CALL or RET, and the output only if its opcode is PRN; the
    output is never rewritten, at most one value is appended to it; and an
    iteration whose fetch fails changes nothing at all. *)
Theorem step_frame (s s' : CPU) (o : outcome unit) :
  step s = (o, s') →
  (py_getitem (ram s) (pc s) = None → s' = s) ∧
  ∀ i, py_getitem (ram s) (pc s) = Some i → frame i s s'.
Proof.
  intros Hstep.
  destruct (step_inv s s' o Hstep) as
    [(Hn & _ & ->)|(i & Hi & Hrest)].
  { split; [done|]. intros i. by rewrite Hn. }
  split; [by rewrite Hi|]. intros i' Hi'. rewrite Hi in Hi'.
  injection Hi' as <-.
  destruct Hrest as [(_ & _ & ->)|(a & Ha & [(_ & _ & ->)|(b & Hb & Hd)])];
    [apply (frame_refl i (set_ir (Some i) s))..|].
  assert (∀ o1 s1,
    dispatch (Z.b2z (Z.testbit i 5)) a b (set_ir (Some i) s) = (o1, s1) →
    frame i s s1) as Hdisp.
  { intros o1 s1 Hd1.
    destruct (dispatch_invokes a b i (set_ir (Some i) s) _ _ eq_refl Hd1)
      as [(_ & _ & ->)|(m & Hm & Hms)];
      [apply (frame_refl i (set_ir (Some i) s))|].
    apply (wp_elim _ _ _ _ _
             (invokes_frame i a b m (set_ir (Some i) s) Hm) Hms). }
  destruct Hd as [(e & Hd & _)|(s1 & Hd & _ & ->)]; [by eapply Hdisp|].
  destruct (Z.testbit i 4); [by eapply Hdisp|].
  apply (Hdisp _ _ Hd).
Qed.

Lemma step_frame_witness : frame Op.PRN prn_fetched (step prn_fetched).2.
Proof.
  apply (proj2 (step_frame prn_fetched (step prn_fetched).2
                  (step prn_fetched).1 (surjective_pairing _)) Op.PRN).
  vm_compute; reflexivity.
Defined.

Example prn_appends_72 :
  out prn_fetched = [] ∧ out (step prn_fetched).2 = [72] ∧
  ram (step prn_fetched).2 = ram prn_fetched ∧
  reg (step prn_fetched).2 = reg prn_fetched.
Proof. split_and!; vm_compute; reflexivity. Qed.

(** ** The handlers the claims leave out *)

(** X1: LDI, with the operand bytes [r] and [v] behind the opcode: if [r]
    is a register index in [0,8) it sets [reg[r]] to [v] and changes no
    other register and nothing else, and an iteration of the run loop on
    LDI then advances the program counter by 3; if [r] is 8 or more there
    is no such register, LDI raises [IndexError] and changes nothing. *)
Theorem LDI_effect (s : CPU) (r v : Z) :
  length (reg s) = 8%nat →
  py_getitem (ram s) (pc s + 1) = Some r →
  py_getitem (ram s) (pc s + 2) = Some v →
  (0 ≤ r < 8 →
   LDI s = (Ret tt, set_reg (<[Z.to_nat r := v]> (reg s)) s) ∧
   py_getitem (<[Z.to_nat r := v]> (reg s)) r = Some v ∧
   (∀ r', 0 ≤ r' < 8 → r' ≠ r →
      py_getitem (<[Z.to_nat r := v]> (reg s)) r' = py_getitem (reg s) r') ∧
   (py_getitem (ram s) (pc s) = Some Op.LDI →
    step s = (Ret tt, set_pc (pc s + 3)
                        (set_reg (<[Z.to_nat r := v]> (reg s))
                           (set_ir (Some Op.LDI) s))))) ∧
  (8 ≤ r →
   LDI s = (Raise (IndexError r), s) ∧
   (py_getitem (ram s) (pc s) = Some Op.LDI →
    step s = (Raise (IndexError r), set_ir (Some Op.LDI) s))).
Proof.
  intros Hlen Hr Hv.
  assert (Hstep : py_getitem (ram s) (pc s) = Some Op.LDI →
            step s = (dispatch (Z.b2z (Z.testbit Op.LDI 5)) r v ≫= λ _,
                      advance (Z.b2z (Z.testbit Op.LDI 4)))
                       (set_ir (Some Op.LDI) s))
    by (intros Hi; by apply step_fetch).
  assert (Hd : dispatch (Z.b2z (Z.testbit Op.LDI 5)) r v (set_ir (Some Op.LDI) s)
               = LDI (set_ir (Some Op.LDI) s))
    by (by apply (dispatch_method _ _ Op.LDI _ LDI)).
  split.
  - intros Hr8.
    assert (Hset : py_setitem (reg s) r v = Some (<[Z.to_nat r := v]> (reg s)))
      by (apply py_setitem_nonneg; lia).
    assert (HLDI : ∀ i, LDI (set_ir i s) =
              (Ret tt, set_reg (<[Z.to_nat r := v]> (reg s)) (set_ir i s)))
      by (intros i; unfold LDI; mrun; mlast).
    split; [by destruct s as [? ? ? ir0 ? ?]; apply (HLDI ir0)|].
    split; [by eapply py_getitem_setitem|].
    split.
    + intros r' Hr' Hne.
      rewrite !py_getitem_nonneg by (rewrite ?length_insert; lia).
      apply list_lookup_insert_ne. lia.
    + intros Hi. rewrite (Hstep Hi). rewrite HLDI in Hd.
      rewrite (bind_Ret _ _ _ _ _ Hd). by rewrite (advance_spec Op.LDI).
  - intros Hr8.
    assert (Hset : py_setitem (reg s) r v = None)
      by (unfold py_setitem; rewrite py_index_None by lia; done).
    assert (HLDI : ∀ i, LDI (set_ir i s) = (Raise (IndexError r), set_ir i s)).
    { intros i. unfold LDI. mrun. unfold reg_set. mrun_simpl. by rewrite Hset. }
    split; [by destruct s as [? ? ? ir0 ? ?]; apply (HLDI ir0)|].
    intros Hi. rewrite (Hstep Hi). rewrite HLDI in Hd.
    by rewrite (bind_Raise _ _ _ _ _ Hd).
Qed.

Lemma LDI_effect_witness :
  (0 ≤ 0 < 8 →
   LDI (loaded prog_mult) =
     (Ret tt, set_reg (<[Z.to_nat 0 := 8]> (reg (loaded prog_mult)))
                (loaded prog_mult)) ∧
   py_getitem (<[Z.to_nat 0 := 8]> (reg (loaded prog_mult))) 0 = Some 8 ∧
   (∀ r', 0 ≤ r' < 8 → r' ≠ 0 →
      py_getitem (<[Z.to_nat 0 := 8]> (reg (loaded prog_mult))) r'
      = py_getitem (reg (loaded prog_mult)) r') ∧
   (py_getitem (ram (loaded prog_mult)) (pc (loaded prog_mult)) = Some Op.LDI →
    step (loaded prog_mult) =
      (Ret tt, set_pc (pc (loaded prog_mult) + 3)
                 (set_reg (<[Z.to_nat 0 := 8]> (reg (loaded prog_mult)))
                    (set_ir (Some Op.LDI) (loaded prog_mult)))))) ∧
  (8 ≤ 0 →
   LDI (loaded prog_mult) = (Raise (IndexError 0), loaded prog_mult) ∧
   (py_getitem (ram (loaded prog_mult)) (pc (loaded prog_mult)) = Some Op.LDI →
    step (loaded prog_mult) =
      (Raise (IndexError 0), set_ir (Some Op.LDI) (loaded prog_mult)))).
Proof.
  apply (LDI_effect (loaded prog_mult) 0 8); vm_compute; reflexivity.
Defined.

(** A program that loads register 9 stops with [IndexError]. *)
Example prog_ldi9_raises :
  ∃ s, load 3 prog_ldi9 cpu_init = Some (IndexError 9, s) ∧
       reg s = reg cpu_init.
Proof. eexists. split; vm_compute; reflexivity. Qed.

(** X2: PRN, with the operand byte [r] behind the opcode and [reg[r]]
    holding [x].  If [x] has at most 4300 decimal digits, PRN appends [x]
    to the output and changes nothing else, and an iteration of the run
    loop on PRN then advances the program counter by 2.  If [x] has more
    digits, formatting it raises [ValueError]: PRN prints nothing and
    changes nothing, and the iteration ends by that exception with the
    program counter still on PRN. *)
Theorem PRN_effect (s : CPU) (r x : Z) :
  py_getitem (ram s) (pc s + 1) = Some r →
  py_getitem (reg s) r = Some x →
  (Z.abs x < 10 ^ int_max_str_digits →
   PRN s = (Ret tt, set_out (out s ++ [x]) s) ∧
   ∀ b, py_getitem (ram s) (pc s) = Some Op.PRN →
        py_getitem (ram s) (pc s + 2) = Some b →
        step s = (Ret tt, set_pc (pc s + 2)
                            (set_out (out s ++ [x]) (set_ir (Some Op.PRN) s)))) ∧
  (10 ^ int_max_str_digits ≤ Z.abs x →
   PRN s = (Raise ValueError, s) ∧
   ∀ b, py_getitem (ram s) (pc s) = Some Op.PRN →
        py_getitem (ram s) (pc s + 2) = Some b →
        step s = (Raise ValueError, set_ir (Some Op.PRN) s)).
Proof.
  intros Hr Hx.
  assert (Hd : ∀ b, dispatch (Z.b2z (Z.testbit Op.PRN 5)) r b
                      (set_ir (Some Op.PRN) s)
                    = PRN (set_ir (Some Op.PRN) s))
    by (intros b; by apply (dispatch_method _ _ Op.PRN _ PRN)).
  split; intros Hlim.
  - assert (HPRN : ∀ i, PRN (set_ir i s) =
              (Ret tt, set_out (out s ++ [x]) (set_ir i s))).
    { intros i. unfold PRN, ram_read, print. mrun.
      rewrite bool_decide_eq_true_2 by done. mlast. }
    split; [by destruct s as [? ? ? ir0 ? ?]; apply (HPRN ir0)|].
    intros b Hi Hb. rewrite (step_fetch s Op.PRN r b Hi Hr Hb).
    specialize (Hd b). rewrite HPRN in Hd. rewrite (bind_Ret _ _ _ _ _ Hd).
    by rewrite (advance_spec Op.PRN).
  - assert (HPRN : ∀ i, PRN (set_ir i s) = (Raise ValueError, set_ir i s)).
    { intros i. unfold PRN, ram_read, print. mrun.
      rewrite bool_decide_eq_false_2 by (by apply Z.le_ngt). mlast. }
    split; [by destruct s as [? ? ? ir0 ? ?]; apply (HPRN ir0)|].
    intros b Hi Hb. rewrite (step_fetch s Op.PRN r b Hi Hr Hb).
    specialize (Hd b). rewrite HPRN in Hd.
    by rewrite (bind_Raise _ _ _ _ _ Hd).
Qed.

Lemma PRN_effect_witness :
  (PRN prn_fetched = (Ret tt, set_out (out prn_fetched ++ [72]) prn_fetched) ∧
   ∀ b, py_getitem (ram prn_fetched) (pc prn_fetched) = Some Op.PRN →
        py_getitem (ram prn_fetched) (pc prn_fetched + 2) = Some b →
        step prn_fetched =
          (Ret tt, set_pc (pc prn_fetched + 2)
                     (set_out (out prn_fetched ++ [72])
                        (set_ir (Some Op.PRN) prn_fetched)))) ∧
  (PRN square_fetched = (Raise ValueError, square_fetched) ∧
   ∀ b, py_getitem (ram square_fetched) (pc square_fetched) = Some Op.PRN →
        py_getitem (ram square_fetched) (pc square_fetched + 2) = Some b →
        step square_fetched =
          (Raise ValueError, set_ir (Some Op.PRN) square_fetched)).
Proof.
  split.
  - refine (proj1 (PRN_effect prn_fetched 0 72 _ _) _);
      vm_compute; reflexivity.
  - refine (proj2 (PRN_effect square_fetched 0 (2 ^ 14336) _ _) _);
      [vm_compute; reflexivity..|].
    apply Z.leb_le. vm_compute; reflexivity.
Defined.

(** The digit limit is met by numbers a program can compute: [prog_square]
    squares 128 eleven times, and its PRN raises; one squaring less and it
    would print. *)
Example prog_square_raises :
  py_getitem (ram square_fetched) (pc square_fetched) = Some Op.PRN ∧
  py_getitem (reg square_fetched) 0 = Some (128 ^ 2048) ∧
  bool_decide (128 ^ 1024 < 10 ^ int_max_str_digits ≤ 128 ^ 2048) = true ∧
  ∃ s, load 13 prog_square cpu_init = Some (ValueError, s) ∧ out s = [].
Proof.
  split_and!; [vm_compute; reflexivity..|].
  eexists. split; vm_compute; reflexivity.
Qed.

(** X3: when the run loop fetches HLT and the two cells behind it can be
    read, the loop stops in that iteration with [SystemExit]; memory,
    registers, flags, program counter and output are as they were, and
    [ir] holds the opcode. *)
Theorem run_halts (s : CPU) (a b : Z) (fuel : nat) :
  py_getitem (ram s) (pc s) = Some Op.HLT →
  py_getitem (ram s) (pc s + 1) = Some a →
  py_getitem (ram s) (pc s + 2) = Some b →
  step s = (Raise SystemExit, set_ir (Some Op.HLT) s) ∧
  run (S fuel) s = Some (SystemExit, set_ir (Some Op.HLT) s).
Proof.
  intros Hi Ha Hb.
  assert (Hs : step s = (Raise SystemExit, set_ir (Some Op.HLT) s)).
  { rewrite (step_fetch s Op.HLT a b Hi Ha Hb). apply bind_Raise.
    by rewrite (dispatch_method _ _ Op.HLT _ HLT). }
  split; [done|]. simpl. by rewrite Hs.
Qed.

Lemma run_halts_witness :
  step (set_pc 11 (loaded prog_mult))
    = (Raise SystemExit, set_ir (Some Op.HLT) (set_pc 11 (loaded prog_mult))) ∧
  run 1 (set_pc 11 (loaded prog_mult))
    = Some (SystemExit, set_ir (Some Op.HLT) (set_pc 11 (loaded prog_mult))).
Proof.
  apply (run_halts (set_pc 11 (loaded prog_mult)) 0 0 0); vm_compute; reflexivity.
Defined.

Lemma RET_returns (s : CPU) (sp t : Z) :
  py_getitem (reg s) 7 = Some sp →
  py_getitem (ram s) sp = Some t →
  RET s = (Ret tt, set_reg (<[7%nat := sp + 1]> (reg s)) (set_pc t s)).
Proof.
  intros Hsp Ht. pose proof (sp_assign s sp Hsp (sp + 1)) as Hsp1.
  unfold RET, stack_pointer, stack_pointer_set. mrun. mlast.
Qed.

(** X4: RET, with register 7 holding [sp] and the memory cell at [sp]
    holding [t], sets the program counter to [t] and register 7 to
    [sp + 1], and changes nothing else; the opcode has bit 4 set, so an
    iteration of the run loop on RET ends with the program counter at [t].
    RET returns exactly under these two conditions. *)
Theorem RET_effect (s : CPU) :
  (∀ sp t,
     py_getitem (reg s) 7 = Some sp →
     py_getitem (ram s) sp = Some t →
     RET s = (Ret tt, set_reg (<[7%nat := sp + 1]> (reg s)) (set_pc t s)) ∧
     ∀ a b, py_getitem (ram s) (pc s) = Some Op.RET →
            py_getitem (ram s) (pc s + 1) = Some a →
            py_getitem (ram s) (pc s + 2) = Some b →
            step s = (Ret tt, set_reg (<[7%nat := sp + 1]> (reg s))
                                (set_pc t (set_ir (Some Op.RET) s)))) ∧
  (∀ s1, RET s = (Ret tt, s1) →
     ∃ sp t, py_getitem (reg s) 7 = Some sp ∧ py_getitem (ram s) sp = Some t).
Proof.
  split.
  - intros sp t Hsp Ht. split; [by apply RET_returns|].
    intros a b Hi Ha Hb. rewrite (step_fetch s Op.RET a b Hi Ha Hb).
    assert (Hd : dispatch (Z.b2z (Z.testbit Op.RET 5)) a b (set_ir (Some Op.RET) s)
                 = RET (set_ir (Some Op.RET) s))
      by (by apply (dispatch_method _ _ Op.RET _ RET)).
    rewrite (RET_returns _ sp t) in Hd by done.
    rewrite (bind_Ret _ _ _ _ _ Hd). by rewrite (advance_spec Op.RET).
  - intros s1. unfold RET, stack_pointer, stack_pointer_set.
    destruct (py_getitem (reg s) 7) as [sp|] eqn:Hsp; [|by mrun].
    destruct (py_getitem (ram s) sp) as [t|] eqn:Ht; [|by mrun].
    intros _. by exists sp, t.
Qed.

Lemma RET_effect_witness :
  RET ret_fetched =
    (Ret tt, set_reg (<[7%nat := 243 + 1]> (reg ret_fetched))
               (set_pc 0 ret_fetched)) ∧
  ∀ a b, py_getitem (ram ret_fetched) (pc ret_fetched) = Some Op.RET →
         py_getitem (ram ret_fetched) (pc ret_fetched + 1) = Some a →
         py_getitem (ram ret_fetched) (pc ret_fetched + 2) = Some b →
         step ret_fetched =
           (Ret tt, set_reg (<[7%nat := 243 + 1]> (reg ret_fetched))
                      (set_pc 0 (set_ir (Some Op.RET) ret_fetched))).
Proof.
  apply (proj1 (RET_effect ret_fetched) 243 0); vm_compute; reflexivity.
Defined.

(** X5: RET after CALL does not come back behind the CALL.  Whenever CALL
    returns, the RET that follows returns too, sets the program counter to
    the operand byte [mem[pc + 1]] of the CALL (the byte CALL pushed, not a
    return address) and leaves the registers as they were before the
    CALL. *)
Theorem CALL_RET (s s1 : CPU) :
  CALL s = (Ret tt, s1) →
  ∃ v s2,
    py_getitem (ram s) (pc s + 1) = Some v ∧
    RET s1 = (Ret tt, s2) ∧
    pc s2 = v ∧ reg s2 = reg s ∧ ram s2 = ram s1.
Proof.
  intros H.
  destruct (CALL_returns_inv s s1 H) as (sp & v & t & ram1 & Hsp & Hv & Hst & Ht).
  rewrite (CALL_returns s sp v t ram1 Hsp Hv Hst Ht) in H. simplify_eq.
  exists v. eexists. split; [done|].
  split.
  - apply (RET_returns _ (sp - 1) v); mrun_simpl.
    + apply (sp_assigned s sp Hsp).
    + by eapply py_getitem_setitem.
  - mrun_simpl. split; [done|]. split; [|done].
    rewrite list_insert_insert_eq. replace (sp - 1 + 1) with sp by lia.
    apply list_insert_id, (py_getitem_lookup _ 7 sp Hsp). lia.
Qed.

Lemma CALL_RET_witness :
  ∃ v s2,
    py_getitem (ram call_fetched) (pc call_fetched + 1) = Some v ∧
    RET (CALL call_fetched).2 = (Ret tt, s2) ∧
    pc s2 = v ∧ reg s2 = reg call_fetched ∧ ram s2 = ram (CALL call_fetched).2.
Proof.
  apply (CALL_RET call_fetched (CALL call_fetched).2). vm_compute; reflexivity.
Defined.

(** On [prog_call] the CALL sits at address 3; the RET after it goes to
    address 1, the operand of the CALL, not to address 5. *)
Example prog_call_ret_goes_to_operand :
  pc call_fetched = 3 ∧ ∃ s2, RET (CALL call_fetched).2 = (Ret tt, s2) ∧ pc s2 = 1.
Proof. split; [|eexists; split]; vm_compute; reflexivity. Qed.

(** ** Memory access *)

Lemma py_index_mod (a : Z) :
  -256 ≤ a < 256 → py_index 256 a = Some (Z.to_nat (a mod 256)).
Proof.
  intros Ha. unfold py_index. case_bool_decide as H0.
  - by rewrite Z.mod_small by lia.
  - rewrite bool_decide_eq_true_2 by lia.
    rewrite <- (Z_mod_plus_full a 1 256). rewrite Z.mod_small by lia.
    do 2 f_equal. lia.
Qed.

Lemma py_index_out (a : Z) : a < -256 ∨ 256 ≤ a → py_index 256 a = None.
Proof.
  intros Ha. unfold py_index. by rewrite !bool_decide_eq_false_2 by lia.
Qed.

(** X9: on a memory of 256 cells [ram_read] and [ram_write] accept the
    addresses in [-256,256) and take them modulo 256 (a negative address
    counts from the end of the memory, as Python subscripts do); any other
    address raises [IndexError] and leaves the machine as it was.  Address
    256 does not wrap around to 0. *)
Theorem ram_address_range (s : CPU) (a v : Z) :
  length (ram s) = 256%nat →
  (-256 ≤ a < 256 →
   ∃ x, ram s !! Z.to_nat (a mod 256) = Some x ∧
        ram_read a s = (Ret x, s) ∧
        ram_write v a s
          = (Ret tt, set_ram (<[Z.to_nat (a mod 256) := v]> (ram s)) s)) ∧
  (a < -256 ∨ 256 ≤ a →
   ram_read a s = (Raise (IndexError a), s) ∧
   ram_write v a s = (Raise (IndexError a), s)).
Proof.
  intros Hlen. split; intros Ha.
  - destruct (lookup_lt_is_Some_2 (ram s) (Z.to_nat (a mod 256))) as [x Hx].
    { pose proof (Z.mod_pos_bound a 256). lia. }
    exists x. split; [done|].
    unfold ram_read, ram_write, ram_get, ram_set, py_getitem, py_setitem.
    rewrite Hlen, (py_index_mod a Ha). simpl. by rewrite Hx.
  - unfold ram_read, ram_write, ram_get, ram_set, py_getitem, py_setitem.
    by rewrite Hlen, (py_index_out a Ha).
Qed.

Lemma ram_address_range_witness :
  (-256 ≤ -1 < 256 →
   ∃ x, ram hlt_at_255 !! Z.to_nat (-1 mod 256) = Some x ∧
        ram_read (-1) hlt_at_255 = (Ret x, hlt_at_255) ∧
        ram_write 7 (-1) hlt_at_255
          = (Ret tt, set_ram (<[Z.to_nat (-1 mod 256) := 7]> (ram hlt_at_255))
                       hlt_at_255)) ∧
  (-1 < -256 ∨ 256 ≤ -1 →
   ram_read (-1) hlt_at_255 = (Raise (IndexError (-1)), hlt_at_255) ∧
   ram_write 7 (-1) hlt_at_255 = (Raise (IndexError (-1)), hlt_at_255)).
Proof. apply (ram_address_range hlt_at_255 (-1) 7). reflexivity. Defined.

(** Address -1 is the last cell, and address 256 is no cell. *)
Example ram_read_minus_one :
  ram_read (-1) hlt_at_255 = (Ret Op.HLT, hlt_at_255) ∧
  ram_read 256 hlt_at_255 = (Raise (IndexError 256), hlt_at_255).
Proof. split; vm_compute; reflexivity. Qed.

(** X10: after [ram_write value address] has returned, [ram_read address]
    returns [value]; reading any address that denotes another cell gives
    what it gave before the write; and the write touches nothing but the
    memory. *)
Theorem ram_write_read (s s1 : CPU) (value address : Z) :
  ram_write value address s = (Ret tt, s1) →
  ram_read address s1 = (Ret value, s1) ∧
  (∀ a', py_index (length (ram s)) a' ≠ py_index (length (ram s)) address →
         (ram_read a' s1).1 = (ram_read a' s).1) ∧
  length (ram s1) = length (ram s) ∧
  reg s1 = reg s ∧ pc s1 = pc s ∧ ir s1 = ir s ∧ fl s1 = fl s ∧ out s1 = out s.
Proof.
  unfold ram_write, ram_set.
  destruct (py_setitem (ram s) address value) as [r|] eqn:Hr; [|done].
  intros [= <-]. mrun_simpl.
  pose proof (py_setitem_length _ _ _ _ Hr) as Hlen.
  split; [by apply ram_get_Some, (py_getitem_setitem (ram s))|].
  split; [|done]. intros a' Hne.
  unfold ram_read, ram_get. mrun_simpl.
  assert (py_getitem r a' = py_getitem (ram s) a') as ->; [|by destruct (py_getitem _ _)].
  unfold py_getitem, py_setitem in *. rewrite Hlen.
  destruct (py_index (length (ram s)) address) as [n|]; simplify_eq/=.
  destruct (py_index (length (ram s)) a') as [n'|]; [|done]. simpl.
  apply list_lookup_insert_ne. congruence.
Qed.

Lemma ram_write_read_witness :
  ram_read 5 (ram_write 42 5 cpu_init).2 = (Ret 42, (ram_write 42 5 cpu_init).2) ∧
  (∀ a', py_index (length (ram cpu_init)) a' ≠ py_index (length (ram cpu_init)) 5 →
         (ram_read a' (ram_write 42 5 cpu_init).2).1 = (ram_read a' cpu_init).1) ∧
  length (ram (ram_write 42 5 cpu_init).2) = length (ram cpu_init) ∧
  reg (ram_write 42 5 cpu_init).2 = reg cpu_init ∧
  pc (ram_write 42 5 cpu_init).2 = pc cpu_init ∧
  ir (ram_write 42 5 cpu_init).2 = ir cpu_init ∧
  fl (ram_write 42 5 cpu_init).2 = fl cpu_init ∧
  out (ram_write 42 5 cpu_init).2 = out cpu_init.
Proof.
  apply (ram_write_read cpu_init (ram_write 42 5 cpu_init).2 42 5).
  vm_compute; reflexivity.
Defined.

(** ** More on the loader *)

Lemma str_take_length (n : nat) (s : string) :
  String.length (str_take n s) = (n `min` String.length s)%nat.
Proof.
  revert s. induction n as [|n IH]; intros [|c s]; simpl; [done..|].
  by rewrite IH.
Qed.

Lemma str_filter_length (s : string) :
  (String.length (str_filter isdigit s) ≤ String.length s)%nat.
Proof.
  induction s as [|c s IH]; simpl; [done|]. destruct (isdigit c); simpl; lia.
Qed.

Lemma str_filter_all_digits (s : string) :
  all_digits s = true → str_filter isdigit s = s.
Proof.
  induction s as [|c s IH]; simpl; [done|].
  destruct (isdigit c); simpl; [|done]. intros H. by rewrite IH.
Qed.

Lemma str_filter_not_all_digits (s : string) :
  all_digits s = false →
  (String.length (str_filter isdigit s) < String.length s)%nat.
Proof.
  induction s as [|c s IH]; simpl; [done|].
  destruct (isdigit c); simpl; intros H.
  - apply IH in H. lia.
  - pose proof (str_filter_length s). lia.
Qed.

(** X12: which lines the loader takes.  A line with fewer than 8
    characters, or with a character among its first 8 that is not a digit
    (an indented instruction, say), is skipped: the load goes on with the
    next line at the same address.  A line whose first 8 characters are all
    digits is taken, and only these 8 characters count: they are converted
    by [int(.., 2)], whatever follows them on the line. *)
Theorem load_line_taken (line : string) (program : list string) (address : Z) :
  ((String.length line < 8)%nat ∨ all_digits (str_take 8 line) = false →
   load_lines (line :: program) address = load_lines program address) ∧
  ((8 ≤ String.length line)%nat → all_digits (str_take 8 line) = true →
   load_lines (line :: program) address =
     match int_base2 (str_take 8 line) with
     | Some value =>
         ram_write value address ≫= λ _, load_lines program (address + 1)
     | None => raise ValueError
     end).
Proof.
  pose proof (str_take_length 8 line) as Hlen.
  pose proof (str_filter_length (str_take 8 line)) as Hle.
  rewrite load_lines_cons. unfold cleaned. split.
  - intros H. rewrite bool_decide_eq_false_2; [done|].
    destruct H as [H|H]; [lia|].
    apply str_filter_not_all_digits in H. lia.
  - intros H8 Hd. rewrite (str_filter_all_digits _ Hd).
    rewrite bool_decide_eq_true_2; [done|]. lia.
Qed.

Lemma load_line_taken_witness :
  load_lines (" 10000010" :: prog_mult)%string 0 = load_lines prog_mult 0 ∧
  load_lines ("10000010 # LDI" :: prog_mult)%string 0 =
    match int_base2 (str_take 8 "10000010 # LDI") with
    | Some value => ram_write value 0 ≫= λ _, load_lines prog_mult (0 + 1)
    | None => raise ValueError
    end.
Proof.
  split.
  - apply (proj1 (load_line_taken " 10000010" prog_mult 0)).
    right. vm_compute; reflexivity.
  - apply (proj2 (load_line_taken "10000010 # LDI" prog_mult 0));
      [vm_compute; lia | vm_compute; reflexivity].
Defined.

(** Loading [program1 ++ program2] is loading [program1], then [program2]
    from the address reached. *)
Lemma load_lines_seq (program1 program2 : list string) (address : Z) (s : CPU) :
  load_lines (program1 ++ program2) address s =
    (load_lines program1 address ≫= λ a, load_lines program2 a) s.
Proof.
  revert address s.
  induction program1 as [|line program1 IH]; intros address s; [done|].
  rewrite <- app_comm_cons, !load_lines_cons.
  case_bool_decide; [|apply IH].
  destruct (int_base2 (cleaned line)) as [v|]; [|done].
  unfold mbind, M_bind.
  destruct (ram_write v address s) as [[[]|e] s1]; [apply IH|done].
Qed.

(** X13: loading is sequential.  If the lines of [program1] load up to
    address [a1], leaving state [s1], then [program1 ++ program2] loads as
    [program2] does from address [a1] in state [s1]; if [program1] raises,
    [program1 ++ program2] raises the same exception in the same state and
    nothing of [program2] is loaded. *)
Theorem load_lines_app (program1 program2 : list string) (address : Z) (s : CPU) :
  (∀ a1 s1, load_lines program1 address s = (Ret a1, s1) →
     load_lines (program1 ++ program2) address s = load_lines program2 a1 s1) ∧
  (∀ e s1, load_lines program1 address s = (Raise e, s1) →
     load_lines (program1 ++ program2) address s = (Raise e, s1)).
Proof.
  split.
  - intros a1 s1 H. rewrite load_lines_seq. by apply bind_Ret.
  - intros e s1 H. rewrite load_lines_seq. by apply bind_Raise.
Qed.

Lemma load_lines_app_witness :
  load_lines (prog_mult ++ prog_unknown) 0 cpu_init
    = load_lines prog_unknown 12 (loaded prog_mult).
Proof.
  apply (proj1 (load_lines_app prog_mult prog_unknown 0 cpu_init)).
  vm_compute; reflexivity.
Defined.

(** X14: a line whose first 8 characters are digits, but not all of them 0
    or 1, stops the load with [ValueError]: the lines before it are in
    memory (under the conditions of C7), nothing after it is loaded, and
    [load] never starts the run loop. *)
Theorem load_stops_at_bad_digit (pre post : list string) (bad : string)
    (s : CPU) (fuel : nat) :
  Forall (λ line, is_Some (int_base2 (cleaned line))) (kept pre) →
  (length (kept pre) ≤ length (ram s))%nat →
  String.length (cleaned bad) = 8%nat →
  int_base2 (cleaned bad) = None →
  ∃ bytes,
    Forall2 (λ line v, int_base2 (cleaned line) = Some v) (kept pre) bytes ∧
    load_lines (pre ++ bad :: post) 0 s =
      (Raise ValueError,
       set_ram (bytes ++ drop (length (kept pre)) (ram s)) s) ∧
    load fuel (pre ++ bad :: post) s =
      Some (ValueError, set_ram (bytes ++ drop (length (kept pre)) (ram s)) s).
Proof.
  intros Hbin Hlen Hq Hbad.
  destruct (load_lines_from pre 0 s Hbin) as (bytes & HF & Hl); [done|].
  assert (load_lines (pre ++ bad :: post) 0 s =
          (Raise ValueError,
           set_ram (bytes ++ drop (length (kept pre)) (ram s)) s)) as Hload.
  { rewrite load_lines_seq. rewrite (bind_Ret _ _ _ _ _ Hl).
    rewrite load_lines_cons. by rewrite bool_decide_eq_true_2, Hbad by done. }
  exists bytes. split; [done|]. split; [done|].
  unfold load. by rewrite Hload.
Qed.

Lemma load_stops_at_bad_digit_witness :
  ∃ bytes,
    Forall2 (λ line v, int_base2 (cleaned line) = Some v) (kept prog_mult) bytes ∧
    load_lines (prog_mult ++ ["00000002"; "00000001"]%string) 0 cpu_init =
      (Raise ValueError,
       set_ram (bytes ++ drop (length (kept prog_mult)) (ram cpu_init)) cpu_init) ∧
    load 5 (prog_mult ++ ["00000002"; "00000001"]%string) cpu_init =
      Some (ValueError,
            set_ram (bytes ++ drop (length (kept prog_mult)) (ram cpu_init))
              cpu_init).
Proof.
  apply (load_stops_at_bad_digit prog_mult ["00000001"%string] "00000002"
           cpu_init 5).
  - refine (bool_decide_unpack _ _). vm_compute. exact I.
  - vm_compute. lia.
  - vm_compute; reflexivity.
  - vm_compute; reflexivity.
Defined.

(** X15: when the memory is full, the next line the loader takes stops the
    load with [IndexError]: with 256 lines loaded, the write of a further
    one at address 256 is out of range (it does not start again at address
    0), the memory holds the 256 bytes already loaded, and [load] never
    starts the run loop. *)
Theorem load_stops_when_full (pre post : list string) (next : string)
    (value : Z) (s : CPU) (fuel : nat) :
  length (ram s) = 256%nat →
  length (kept pre) = 256%nat →
  Forall (λ line, is_Some (int_base2 (cleaned line))) (kept pre) →
  String.length (cleaned next) = 8%nat →
  int_base2 (cleaned next) = Some value →
  ∃ bytes,
    Forall2 (λ line v, int_base2 (cleaned line) = Some v) (kept pre) bytes ∧
    load_lines (pre ++ next :: post) 0 s =
      (Raise (IndexError 256), set_ram bytes s) ∧
    load fuel (pre ++ next :: post) s =
      Some (IndexError 256, set_ram bytes s).
Proof.
  intros Hram Hpre Hbin Hq Hv.
  destruct (load_lines_from pre 0 s Hbin) as (bytes & HF & Hl); [simpl; lia|].
  simpl in Hl. rewrite Hpre in Hl.
  rewrite drop_ge, app_nil_r in Hl by lia.
  assert (length bytes = 256%nat) as Hbytes
    by (by rewrite <- (Forall2_length _ _ _ HF)).
  assert (load_lines (pre ++ next :: post) 0 s =
          (Raise (IndexError 256), set_ram bytes s)) as Hload.
  { rewrite load_lines_seq. rewrite (bind_Ret _ _ _ _ _ Hl).
    rewrite load_lines_cons. rewrite bool_decide_eq_true_2, Hv by done.
    apply bind_Raise. unfold ram_write. apply ram_set_None. mrun_simpl.
    unfold py_setitem. by rewrite Hbytes. }
  exists bytes. split; [done|]. split; [done|].
  unfold load. by rewrite Hload.
Qed.

Lemma load_stops_when_full_witness :
  ∃ bytes,
    Forall2 (λ line v, int_base2 (cleaned line) = Some v)
      (kept (replicate 256 "00000001"%string)) bytes ∧
    load_lines (replicate 256 "00000001"%string ++ ["00000001"%string]) 0 cpu_init =
      (Raise (IndexError 256), set_ram bytes cpu_init) ∧
    load 5 (replicate 256 "00000001"%string ++ ["00000001"%string]) cpu_init =
      Some (IndexError 256, set_ram bytes cpu_init).
Proof.
  apply (load_stops_when_full (replicate 256 "00000001"%string) []
           "00000001" 1 cpu_init 5).
  - reflexivity.
  - vm_compute; reflexivity.
  - refine (bool_decide_unpack _ _). vm_compute. exact I.
  - vm_compute; reflexivity.
  - vm_compute; reflexivity.
Defined.

(** ** Edges of the stack and of the fetch *)



(** X16: the stack has no bottom.  With register 7 holding [sp] in
    [-255,256], PUSH writes at address [(sp - 1) mod 256]: pushed below
    address 0, the stack goes on at the top of the memory.  Outside this
    range PUSH raises [IndexError], and leaves register 7 decremented all
    the same. *)
Theorem PUSH_stack_range (s : CPU) (sp v : Z) :
  length (ram s) = 256%nat →
  py_getitem (reg s) 7 = Some sp →
  py_getitem (ram s) (pc s + 1) = Some v →
  (-255 ≤ sp ≤ 256 →
   PUSH s = (Ret tt, set_ram (<[Z.to_nat ((sp - 1) mod 256) := v]> (ram s))
                       (set_reg (<[7%nat := sp - 1]> (reg s)) s))) ∧
  (sp < -255 ∨ 256 < sp →
   PUSH s = (Raise (IndexError (sp - 1)),
             set_reg (<[7%nat := sp - 1]> (reg s)) s)).
Proof.
  intros Hlen Hsp Hv. split; intros Hrange.
  - apply (PUSH_returns s sp v _ Hsp Hv).
    unfold py_setitem. by rewrite Hlen, py_index_mod by lia.
  - pose proof (sp_assign s sp Hsp (sp - 1)) as Hsp1.
    pose proof (sp_assigned s sp Hsp (sp - 1)) as Hsp2.
    assert (py_setitem (ram s) (sp - 1) v = None) as Hst
      by (unfold py_setitem; by rewrite Hlen, py_index_out by lia).
    unfold PUSH, stack_pointer, stack_pointer_set. mrun. mlast.
Qed.

Lemma PUSH_stack_range_witness :
  (-255 ≤ 0 ≤ 256 →
   PUSH (with_regs [0; 0; 0; 0; 0; 0; 0; 0]) =
     (Ret tt, set_ram (<[Z.to_nat ((0 - 1) mod 256) := 0]>
                         (ram (with_regs [0; 0; 0; 0; 0; 0; 0; 0])))
                (set_reg (<[7%nat := 0 - 1]>
                            (reg (with_regs [0; 0; 0; 0; 0; 0; 0; 0])))
                   (with_regs [0; 0; 0; 0; 0; 0; 0; 0])))) ∧
  (0 < -255 ∨ 256 < 0 →
   PUSH (with_regs [0; 0; 0; 0; 0; 0; 0; 0]) =
     (Raise (IndexError (0 - 1)),
      set_reg (<[7%nat := 0 - 1]> (reg (with_regs [0; 0; 0; 0; 0; 0; 0; 0])))
        (with_regs [0; 0; 0; 0; 0; 0; 0; 0]))).
Proof.
  apply (PUSH_stack_range (with_regs [0; 0; 0; 0; 0; 0; 0; 0]) 0 0);
    vm_compute; reflexivity.
Defined.



(** A jump to the address in a register that holds 300 ends the run. *)
Example jump_out_of_memory :
  step (set_pc 300 cpu_init) = (Raise (IndexError 300), set_pc 300 cpu_init) ∧
  ∃ s, step (set_pc (-1) cpu_init) = (Raise (KeyError 0), s).
Proof. split; [|eexists]; vm_compute; reflexivity. Qed.

(** ** Compare and branch *)

Lemma JMP_returns (s : CPU) (r t : Z) :
  py_getitem (ram s) (pc s + 1) = Some r →
  py_getitem (reg s) r = Some t →
  JMP s = (Ret tt, set_pc t s).
Proof. intros Hr Ht. unfold JMP. mrun. mlast. Qed.

(** X18: CMP followed by a branch is a test for equality of the two
    registers.  After the ALU has compared [reg[a] = x] with [reg[b] = y],
    JEQ jumps (to the address in the register its operand names) if and
    only if [x = y], and JNE if and only if [x ≠ y]; the branch not taken
    sets [pc] to [pc + 2].  Whether [x] is less or greater than [y] makes
    no difference to either. *)
Theorem CMP_then_branch (s : CPU) (a b x y r t : Z) :
  py_getitem (reg s) a = Some x →
  py_getitem (reg s) b = Some y →
  py_getitem (ram s) (pc s + 1) = Some r →
  py_getitem (reg s) r = Some t →
  ∃ s1,
    alu "CMP" a b s = (Ret tt, s1) ∧
    JEQ s1 = (Ret tt, set_pc (if bool_decide (x = y) then t else pc s + 2) s1) ∧
    JNE s1 = (Ret tt, set_pc (if bool_decide (x ≠ y) then t else pc s + 2) s1).
Proof.
  intros Hx Hy Hr Ht.
  eexists. split; [by apply alu_CMP_returns|].
  assert (∀ f, JMP (set_fl f s) = (Ret tt, set_pc t (set_fl f s))) as Hjmp
    by (intros f; by apply (JMP_returns _ r t)).
  unfold JEQ, JNE. split; mrun; rewrite ?Hjmp;
    repeat case_bool_decide; try done; lia.
Qed.

Lemma CMP_then_branch_witness :
  ∃ s1,
    alu "CMP" 0 1 cmp_fetched = (Ret tt, s1) ∧
    JEQ s1 = (Ret tt, set_pc (if bool_decide (5 = 9) then 5
                              else pc cmp_fetched + 2) s1) ∧
    JNE s1 = (Ret tt, set_pc (if bool_decide (5 ≠ 9) then 5
                              else pc cmp_fetched + 2) s1).
Proof.
  apply (CMP_then_branch cmp_fetched 0 1 5 9 0 5); vm_compute; reflexivity.
Defined.

(** On [prog_cmp], where 5 is compared with 9, JEQ at address 9 is not
    taken. *)
Example prog_cmp_jeq_not_taken :
  ∃ s, run 2 cmp_fetched = None ∧
       step (step cmp_fetched).2 = (Ret tt, s) ∧ fl s = 4 ∧ pc s = 11.
Proof. eexists. split_and!; vm_compute; reflexivity. Qed.

(** ** A file without instructions *)

(** X19: a file none of whose lines is taken (an empty file, or comments
    and blank lines only) leaves the memory as [__init__] made it, all
    zeros; [load] then runs it, and the run ends at once with the
    [KeyError] of opcode 0, which is not in the branch table. *)
Theorem load_no_instruction (program : list string) (fuel : nat) :
  kept program = [] →
  load_lines program 0 cpu_init = (Ret 0, cpu_init) ∧
  load (S fuel) program cpu_init = Some (KeyError 0, set_ir (Some 0) cpu_init).
Proof.
  intros Hk.
  destruct (load_lines_from program 0 cpu_init) as (bytes & HF & Hl).
  { rewrite Hk. constructor. }
  { rewrite Hk. simpl. lia. }
  rewrite Hk in HF, Hl. apply Forall2_nil_inv_l in HF as ->.
  assert (load_lines program 0 cpu_init = (Ret 0, cpu_init)) as Hload
    by exact Hl.
  split; [done|]. unfold load. rewrite Hload.
  assert (step cpu_init = (Raise (KeyError 0), set_ir (Some 0) cpu_init)) as Hs
    by (vm_compute; reflexivity).
  cbn [run]. by rewrite Hs.
Qed.

Lemma load_no_instruction_witness :
  load_lines ["# nothing here"; ""; "  "]%string 0 cpu_init = (Ret 0, cpu_init) ∧
  load 1 ["# nothing here"; ""; "  "]%string cpu_init
    = Some (KeyError 0, set_ir (Some 0) cpu_init).
Proof.
  apply (load_no_instruction ["# nothing here"; ""; "  "]%string 0).
  vm_compute; reflexivity.
Defined.

(** ** The shape of the machine *)

Lemma reachable_wf_witness : wf jeq_fetched.
Proof.
  apply (reachable_wf jeq_fetched).
  apply (reach_call Call_run_iteration (step (loaded prog_jeq)).2 _ (Ret tt));
    [|vm_compute; reflexivity].
  apply (reach_call Call_run_iteration (loaded prog_jeq) _ (Ret tt));
    [|vm_compute; reflexivity].
  apply (reach_call (Call_load_lines prog_jeq) cpu_init _ (Ret tt));
    [constructor | vm_compute; reflexivity].
Defined.

(** ** Handlers that fail leave no trace *)

(** A subscript that was read cannot fail to be assigned. *)
Lemma py_setitem_not_None (l : list Z) (i v x : Z) :
  py_getitem l i = Some v → py_setitem l i x = None → False.
Proof.
  intros Hg Hs. destruct (py_setitem_is_Some l l i v x Hg eq_refl) as [r Hr].
  congruence.
Qed.

(** A handler other than PUSH and CALL that raises has changed nothing. *)
Lemma invokes_atomic (i a b : Z) (m : M unit) (s : CPU) :
  invokes i a b m → i ≠ Op.PUSH → i ≠ Op.CALL →
  wp m (λ _ _, True) (λ _ s', s' = s) s.
Proof.
  destruct 1; intros ? ?; try done; wp_go;
    first [ done | congruence
          | solve [exfalso; eauto using py_setitem_not_None] ].
Qed.

(** X20: an iteration of the run loop that ends by an exception has changed
    nothing but [ir], unless its opcode is PUSH or CALL: LDI, PRN, the ALU
    operations, POP, RET and the jumps do all their reads before their
    first write, and an unknown opcode runs no handler.  (PUSH and CALL
    decrement register 7 first, see X16.) *)
Theorem step_raise_atomic (s s' : CPU) (e : exn) (i : Z) :
  step s = (Raise e, s') →
  py_getitem (ram s) (pc s) = Some i →
  i ≠ Op.PUSH → i ≠ Op.CALL →
  s' = set_ir (Some i) s.
Proof.
  intros Hstep Hi Hpush Hcall.
  destruct (step_inv s s' _ Hstep) as
    [(Hn & _)|(i' & Hi' & [(_ & _ & ->)|(a & Ha & [(_ & _ & ->)|(b & Hb & Hd)])])];
    simplify_eq; [done..|].
  destruct Hd as [(e' & Hd & ?)|(s1 & _ & ? & _)]; simplify_eq.
  destruct (dispatch_invokes a b i (set_ir (Some i) s) _ _ eq_refl Hd)
    as [(_ & _ & ->)|(m & Hm & Hms)]; [done|].
  apply (wp_Raise _ _ _ _ _ _
           (invokes_atomic i a b m (set_ir (Some i) s) Hm Hpush Hcall) Hms).
Qed.

Lemma step_raise_atomic_witness :
  (step (loaded prog_ldi9)).2 = set_ir (Some Op.LDI) (loaded prog_ldi9).
Proof.
  apply (step_raise_atomic (loaded prog_ldi9) _ (IndexError 9) Op.LDI);
    vm_compute; (reflexivity || discriminate).
Defined.

(** ** The wiring of the branch table *)

Lemma invokes_dispatch (i a b : Z) (m : M unit) (s : CPU) :
  invokes i a b m → ir s = Some i →
  dispatch (Z.b2z (Z.testbit i 5)) a b s = m s.
Proof.
  destruct 1; intros Hir;
    first [ by apply (dispatch_method _ _ _ _ _ Hir)
          | by apply (dispatch_lambda _ _ _ _ _ Hir) ].
Qed.

(** X21: every opcode of the branch table runs the handler of its own name:
    the ALU opcodes call [alu] with their own operation name and the two
    operand bytes, the others call their method without arguments.  An
    iteration of the run loop on such an opcode [i] is that handler, run on
    the state with [ir] set to [i]; if it raises, the iteration raises in
    the state the handler left; if it returns, the program counter is
    advanced by [((i >> 6) & 0b11) + 1] unless bit 4 of [i] is set. *)
Theorem run_invokes (s : CPU) (i a b : Z) (m : M unit) :
  py_getitem (ram s) (pc s) = Some i →
  py_getitem (ram s) (pc s + 1) = Some a →
  py_getitem (ram s) (pc s + 2) = Some b →
  invokes i a b m →
  step s =
    match m (set_ir (Some i) s) with
    | (Ret _, s1) =>
        (Ret tt, if Z.testbit i 4 then s1
                 else set_pc (pc s1 + (Z.land (Z.shiftr i 6) 3 + 1)) s1)
    | (Raise e, s1) => (Raise e, s1)
    end.
Proof.
  intros Hi Ha Hb Hm. rewrite (step_fetch s i a b Hi Ha Hb).
  pose proof (invokes_dispatch i a b m (set_ir (Some i) s) Hm eq_refl) as Hd.
  destruct (m (set_ir (Some i) s)) as [[[]|e] s1] eqn:Hms.
  - rewrite (bind_Ret _ _ _ _ _ Hd). apply advance_spec.
    by rewrite (dispatch_keeps_ir _ _ _ _ _ _ Hd).
  - by rewrite (bind_Raise _ _ _ _ _ Hd).
Qed.

Lemma run_invokes_witness :
  step (set_pc 6 (loaded prog_mult)) =
    match alu "MUL" 0 1 (set_ir (Some Op.MUL) (set_pc 6 (loaded prog_mult))) with
    | (Ret _, s1) =>
        (Ret tt, if Z.testbit Op.MUL 4 then s1
                 else set_pc (pc s1 + (Z.land (Z.shiftr Op.MUL 6) 3 + 1)) s1)
    | (Raise e, s1) => (Raise e, s1)
    end.
Proof.
  apply (run_invokes (set_pc 6 (loaded prog_mult)) Op.MUL 0 1 (alu "MUL" 0 1));
    [vm_compute; reflexivity.. | constructor].
Defined.
